(** * analyze_pr.py: a shallow embedding of [PRAnalyzer] and its properties

    The script reads a pull-request event, extracts the PR fields, scans the
    description for image URLs with two regular expressions, downloads up to
    three images, asks a generative model for a review and posts the answer
    as a comment.  This file embeds the methods of [PRAnalyzer] that extract,
    fetch, analyze and post as functions in a small monad (an event trace
    threaded through, and an outcome that is a returned value, a raised
    [Exception] or [sys.exit]) and proves the properties stated about them.

    Modelling conventions.
    - A Python [str] is a [string]: the sequence of bytes of its UTF-8
      encoding.  Every character the two patterns and the suffix tests name
      is ASCII, and no byte of a multi-byte UTF-8 sequence is ASCII, so the
      matches and the suffix tests are those of the code-point string;
      [Str.strip] recognises the white space outside ASCII by its bytes.
    - A value read from the event JSON is a [pyval]; a JSON object is a
      [gmap string pyval] (only [get], subscript and truthiness are used).
    - The network, the model and the interpreter's own renderings ([str] of
      an exception, [repr] of a container) are a [runtime]: functions of the
      events so far, quantified over in every theorem. *)

From Stdlib Require Import ZArith String Ascii List Lia DecimalString.
From Stdlib Require Import Floats.SpecFloat.
From stdpp Require Import base option list gmap sets strings.

#[local] Set Warnings "-register-all".
#[local] Open Scope Z_scope.

(** ** Python values *)

Module Py.

(** The values [json.load] produces. *)
Inductive pyval :=
| PNone
| PBool (b : bool)
| PInt (z : Z)
| PFloat (f : spec_float)
| PStr (s : string)
| PList (l : list pyval)
| PDict (d : gmap string pyval).

(** [bool(v)]: [None], [False], zero, and empty strings and containers are
    false. *)
Definition truthy (v : pyval) : bool :=
  match v with
  | PNone => false
  | PBool b => b
  | PInt z => negb (z =? 0)
  | PFloat (S754_zero _) => false
  | PFloat _ => true
  | PStr s => negb (String.eqb s "")
  | PList l => match l with [] => false | _ :: _ => true end
  | PDict d => negb (Nat.eqb (size d) 0)
  end.

(** [type(v).__name__] *)
Definition type_name (v : pyval) : string :=
  match v with
  | PNone => "NoneType"
  | PBool _ => "bool"
  | PInt _ => "int"
  | PFloat _ => "float"
  | PStr _ => "str"
  | PList _ => "list"
  | PDict _ => "dict"
  end.

(** The exceptions the script can meet; all of them derive from [Exception]
    ([SystemExit] does not, and is an outcome of its own below). *)
Inductive exn :=
| AttributeError (type attr : string)
| TypeError (detail : string)
| KeyError (key : string)
| JSONDecodeError
| FileNotFoundError (path : string)
| OSError (detail : string)
| RequestException (detail : string)
| ModelError (detail : string).

Definition bytes := list Byte.byte.

(** What a [requests] call gives back: a response object or an exception
    (connection refused, timeout, ...).  [json] is [None] when the body does
    not parse, in which case [response.json()] raises. *)
Record response := {
  status_code : Z;
  content : bytes;
  text : string;
  json : option pyval
}.

Inductive http_outcome :=
| Responded (r : response)
| Failed (e : exn).

(** One image handed to the model. *)
Record image_part := { mime_type : string; data : bytes }.

(** What [generate_content(...)] followed by [response.text] gives. *)
Inductive model_outcome :=
| Answered (text : string)
| Refused (e : exn).

(** What opening the event file and [json.load] give. *)
Inductive file_outcome :=
| Loaded (v : pyval)
| Unreadable (e : exn).

(** The observable events of a run, oldest first. *)
Inductive event :=
| Stdout (line : string)
| HttpGet (url : string) (timeout : Z)
| HttpPost (url : string) (json_body : gmap string string) (headers : gmap string string)
| GenerateContent (prompt : string) (parts : list image_part).

Definition trace := list event.

(** The world outside the script. *)
Record runtime := {
  requests_get : trace → string → http_outcome;
  requests_post : trace → string → gmap string string → gmap string string → http_outcome;
  generate_content : trace → string → list image_part → model_outcome;
  json_load : string → file_outcome;
  str_exn : exn → string;
  repr : pyval → string
}.

(** *** Outcomes and the monad *)

Inductive outcome (A : Type) :=
| Returned (a : A)
| Raised (e : exn)
| Exited (code : Z).
Arguments Returned {A} a.
Arguments Raised {A} e.
Arguments Exited {A} code.

Definition M (A : Type) : Type := trace → outcome A * trace.

Definition ret {A} (a : A) : M A := λ t, (Returned a, t).

Definition bind {A B} (m : M A) (k : A → M B) : M B :=
  λ t, match m t with
       | (Returned a, t') => k a t'
       | (Raised e, t') => (Raised e, t')
       | (Exited c, t') => (Exited c, t')
       end.

Definition raise {A} (e : exn) : M A := λ t, (Raised e, t).

(** [sys.exit(code)] raises [SystemExit], which [except Exception] does not
    catch. *)
Definition sys_exit {A} (code : Z) : M A := λ t, (Exited code, t).

Definition emit (e : event) : M unit := λ t, (Returned tt, t ++ [e]).

Definition print (line : string) : M unit := emit (Stdout line).

(** [try: body except Exception as e: handler e] *)
Definition try_except {A} (body : M A) (handler : exn → M A) : M A :=
  λ t, match body t with
       | (Raised e, t') => handler e t'
       | r => r
       end.

(** [if c: body] with nothing after it in the branch. *)
Definition when (c : bool) (body : M unit) : M unit :=
  if c then body else ret tt.

End Py.
Import Py.

Declare Scope py_scope.
Delimit Scope py_scope with py.
Notation "x <- m ;; k" := (bind m (λ x, k))
  (at level 100, m at next level, right associativity) : py_scope.
Notation "m ;;; k" := (bind m (λ _, k))
  (at level 100, right associativity) : py_scope.
#[local] Open Scope py_scope.

(** ** Strings *)

Module Str.

(** [str(z)] for an integer. *)
Definition of_Z (z : Z) : string := NilZero.string_of_int (Z.to_int z).

(** [str(v)] as an f-string inserts it; containers and floats are rendered
    by the interpreter. *)
Definition str (rt : runtime) (v : pyval) : string :=
  match v with
  | PStr s => s
  | PNone => "None"
  | PBool true => "True"
  | PBool false => "False"
  | PInt z => of_Z z
  | _ => repr rt v
  end.

Definition is_upper (c : ascii) : bool :=
  let n := nat_of_ascii c in (Nat.leb 65 n && Nat.leb n 90)%bool.

Definition lower_char (c : ascii) : ascii :=
  if is_upper c then ascii_of_nat (nat_of_ascii c + 32) else c.

(** [s.lower()], on the ASCII letters.  Python also lowercases letters
    outside ASCII; none of them becomes text that ends with a letter of
    [.png], [.gif] or [.webp], so the suffix tests below are not affected. *)
Fixpoint lower (s : string) : string :=
  match s with
  | EmptyString => EmptyString
  | String c s' => String (lower_char c) (lower s')
  end.

(** [s.endswith(suffix)]: [s] itself or one of its tails is [suffix]. *)
Fixpoint endswith (s suffix : string) : bool :=
  (String.eqb s suffix ||
   match s with
   | EmptyString => false
   | String _ s' => endswith s' suffix
   end)%bool.

(** [s * n] *)
Fixpoint times (s : string) (n : nat) : string :=
  match n with
  | O => ""
  | S n' => s +:+ times s n'
  end.

(** The last character of a string. *)
Fixpoint last_char (s : string) : option ascii :=
  match s with
  | EmptyString => None
  | String c EmptyString => Some c
  | String _ s' => last_char s'
  end.

(** The white space [str.strip()] removes is that of [str.isspace]: the
    code points U+0009 to U+000D, U+001C to U+0020, U+0085, U+00A0, U+1680,
    U+2000 to U+200A, U+2028, U+2029, U+202F, U+205F and U+3000.  In UTF-8
    the first ten are single bytes, U+0085 and U+00A0 are two bytes and the
    others three. *)
Definition is_space (c : ascii) : bool :=
  let n := nat_of_ascii c in
  ((Nat.leb 9 n && Nat.leb n 13) || (Nat.leb 28 n && Nat.leb n 32))%bool.

(** U+0085 is [C2 85] and U+00A0 is [C2 A0]. *)
Definition is_space2 (a b : ascii) : bool :=
  let y := nat_of_ascii b in
  (Nat.eqb (nat_of_ascii a) 194 && (Nat.eqb y 133 || Nat.eqb y 160))%bool.

(** U+1680 is [E1 9A 80]; U+2000 to U+200A are [E2 80 80] to [E2 80 8A];
    U+2028, U+2029 and U+202F are [E2 80 A8], [E2 80 A9] and [E2 80 AF];
    U+205F is [E2 81 9F]; U+3000 is [E3 80 80]. *)
Definition is_space3 (a b c : ascii) : bool :=
  let x := nat_of_ascii a in
  let y := nat_of_ascii b in
  let z := nat_of_ascii c in
  ((Nat.eqb x 225 && Nat.eqb y 154 && Nat.eqb z 128) ||
   (Nat.eqb x 226 && Nat.eqb y 128 &&
    ((Nat.leb 128 z && Nat.leb z 138) ||
     Nat.eqb z 168 || Nat.eqb z 169 || Nat.eqb z 175)) ||
   (Nat.eqb x 226 && Nat.eqb y 129 && Nat.eqb z 159) ||
   (Nat.eqb x 227 && Nat.eqb y 128 && Nat.eqb z 128))%bool.

(** Drop the white space at the front of [s], one code point at a time;
    [sp2] and [sp3] recognise the code points of two and three bytes. *)
Fixpoint lstrip_by (sp2 : ascii → ascii → bool) (sp3 : ascii → ascii → ascii → bool)
    (s : string) : string :=
  match s with
  | EmptyString => EmptyString
  | String a s1 =>
      if is_space a then lstrip_by sp2 sp3 s1
      else
        match s1 with
        | EmptyString => s
        | String b s2 =>
            if sp2 a b then lstrip_by sp2 sp3 s2
            else
              match s2 with
              | EmptyString => s
              | String c s3 => if sp3 a b c then lstrip_by sp2 sp3 s3 else s
              end
        end
  end.

(** [s.lstrip()] *)
Definition lstrip (s : string) : string := lstrip_by is_space2 is_space3 s.

(** [s.rstrip()]: the same from the end, where the bytes of a code point
    come last byte first. *)
Definition rstrip (s : string) : string :=
  String.rev
    (lstrip_by (λ a b, is_space2 b a) (λ a b c, is_space3 c b a) (String.rev s)).

(** [s.strip()] *)
Definition strip (s : string) : string := rstrip (lstrip s).

End Str.

(** ** Regular expressions: the part of [re] the two patterns use

    A pattern is the sequence of operations CPython's [sre] compiles it to.
    Both patterns are built from single characters and character sets, a lazy
    star and a greedy plus over a character set, and one capturing group.
    The matcher backtracks exactly as [sre] does for these operations: a lazy
    repeat tries the rest of the pattern before taking one more character, a
    greedy repeat takes all it can and gives characters back one at a
    time. *)

Module Re.

Inductive charset :=
| Any                       (* [.] without DOTALL: anything but a newline *)
| Literal (c : ascii)
| In (cs : list ascii)      (* [[...]] *)
| NotIn (cs : list ascii).  (* [[^...]] *)

Definition inb (c : ascii) (cs : list ascii) : bool :=
  existsb (Ascii.eqb c) cs.

Definition accepts (cs : charset) (c : ascii) : bool :=
  match cs with
  | Any => negb (Ascii.eqb c "010")
  | Literal c' => Ascii.eqb c c'
  | In l => inb c l
  | NotIn l => negb (inb c l)
  end.

Inductive op :=
| One (cs : charset)        (* one character of the set *)
| MinStar (cs : charset)    (* [cs*?] *)
| MaxPlus (cs : charset)    (* [cs+] *)
| MarkOpen                  (* [(] of group 1 *)
| MarkClose.                (* [)] of group 1 *)

Definition pattern := list op.

(** The literal text [s] as a pattern. *)
Fixpoint lit (s : string) : pattern :=
  match s with
  | EmptyString => []
  | String c s' => One (Literal c) :: lit s'
  end.

(** Where group 1 starts and ends, each as the input that remained there. *)
Record marks := { mark_open : string; mark_close : string }.

Definition no_marks : marks := {| mark_open := ""; mark_close := "" |}.

(** [m.group(1)] *)
Definition group1 (m : marks) : string :=
  String.substring 0 (String.length (mark_open m) - String.length (mark_close m))
    (mark_open m).

Section Repeats.
Context {R : Type} (cs : charset) (k : string → marks → option R).

(** [cs*?] followed by [k]. *)
Fixpoint min_star (s : string) (m : marks) : option R :=
  match k s m with
  | Some r => Some r
  | None =>
      match s with
      | String c s' => if accepts cs c then min_star s' m else None
      | EmptyString => None
      end
  end.

(** [cs*] followed by [k]. *)
Fixpoint max_star (s : string) (m : marks) : option R :=
  match s with
  | String c s' =>
      if accepts cs c then
        match max_star s' m with
        | Some r => Some r
        | None => k s m
        end
      else k s m
  | EmptyString => k s m
  end.
End Repeats.

(** [exec p s m]: match [p] at the start of [s]; the marks and the input
    left after the match, or [None]. *)
Fixpoint exec (p : pattern) : string → marks → option (marks * string) :=
  match p with
  | [] => λ s m, Some (m, s)
  | One cs :: p' => λ s m,
      match s with
      | String c s' => if accepts cs c then exec p' s' m else None
      | EmptyString => None
      end
  | MinStar cs :: p' => min_star cs (exec p')
  | MaxPlus cs :: p' => λ s m,
      match s with
      | String c s' => if accepts cs c then max_star cs (exec p') s' m else None
      | EmptyString => None
      end
  | MarkOpen :: p' => λ s m,
      exec p' s {| mark_open := s; mark_close := mark_close m |}
  | MarkClose :: p' => λ s m,
      exec p' s {| mark_open := mark_open m; mark_close := s |}
  end.

Definition tail (s : string) : string :=
  match s with
  | EmptyString => EmptyString
  | String _ s' => s'
  end.

(** The scan of [re.findall] for a pattern with one group: the leftmost
    match from the current position, its group 1, and on from where the
    match ended; one character further when there is no match here (or when
    the match is empty, which neither pattern of the script allows).  The
    fuel bounds the number of positions tried. *)
Fixpoint scan (fuel : nat) (p : pattern) (s : string) : list string :=
  match fuel with
  | O => []
  | S fuel' =>
      match exec p s no_marks with
      | Some (m, rest) =>
          group1 m ::
            (if Nat.ltb (String.length rest) (String.length s)
             then scan fuel' p rest
             else match s with
                  | EmptyString => []
                  | String _ s' => scan fuel' p s'
                  end)
      | None =>
          match s with
          | EmptyString => []
          | String _ s' => scan fuel' p s'
          end
      end
  end.

(** [re.findall(p, s)] *)
Definition findall (p : pattern) (s : string) : list string :=
  scan (S (String.length s)) p s.

End Re.

(** ** The order of [list(set(...))]

    The order in which a Python set of strings is listed depends on the hash
    seed of the process.  It is a parameter: any function that lists each
    member of its argument once. *)

Class SetOrder := {
  list_set : list string → list string;
  list_set_NoDup : ∀ l, NoDup (list_set l);
  list_set_elem : ∀ l x, x ∈ list_set l ↔ x ∈ l
}.

(** One such order: first occurrences, in the order of the list. *)
Definition first_seen_order : SetOrder :=
  {| list_set := remove_dups;
     list_set_NoDup := NoDup_remove_dups;
     list_set_elem := λ l x, elem_of_remove_dups l x |}.

(** Another: that of stdpp's [gset]. *)
Definition gset_order : SetOrder :=
  {| list_set l := elements (list_to_set l : gset string);
     list_set_NoDup l := NoDup_elements (list_to_set l : gset string);
     list_set_elem l x :=
       iff_trans (elem_of_elements (list_to_set l : gset string) x)
                 (elem_of_list_to_set x l) |}.

(** ** The class [PRAnalyzer] *)

Module PRAnalyzer.

(** The object [__init__] builds. *)
Record analyzer := {
  github_token : string;
  headers : gmap string string
}.

Definition init (github_token gemini_api_key : string) : analyzer :=
  {| github_token := github_token;
     headers :=
       <["Authorization" := "token " +:+ github_token]>
       (<["Accept" := "application/vnd.github.v3+json"]>
       (<["X-GitHub-Api-Version" := "2022-11-28"]> ∅)) |}.

(** The dictionary [extract_pr_details] returns; its five keys are fixed. *)
Record pr_details := {
  title : pyval;
  description : pyval;
  number : pyval;
  url : pyval;
  repo : pyval
}.

(** [r'!\[.*?\]\((.*?)\)'] *)
Definition markdown_pattern : Re.pattern :=
  Re.lit "![" ++ [Re.MinStar Re.Any] ++ Re.lit "](" ++
  [Re.MarkOpen; Re.MinStar Re.Any; Re.MarkClose] ++ Re.lit ")".

Definition quotes : list ascii := ["034"; "'"]%char.

(** The HTML pattern, [<img[^>]+src=Q([^Q]+)Q] where [Q] stands for the
    set of the two quote characters, double and single. *)
Definition html_pattern : Re.pattern :=
  Re.lit "<img" ++ [Re.MaxPlus (Re.NotIn [">"%char])] ++ Re.lit "src=" ++
  [Re.One (Re.In quotes); Re.MarkOpen; Re.MaxPlus (Re.NotIn quotes);
   Re.MarkClose; Re.One (Re.In quotes)].

Definition newline : string := String "010" "".

(** The inline [if]/[elif] chain of [analyze_with_gemini] that picks the
    MIME type of a downloaded image. *)
Definition infer_mime_type (image_url : string) : string :=
  if Str.endswith (Str.lower image_url) ".png" then "image/png"
  else if Str.endswith (Str.lower image_url) ".gif" then "image/gif"
  else if Str.endswith (Str.lower image_url) ".webp" then "image/webp"
  else "image/jpeg".

Section Methods.
Context (rt : runtime) {order : SetOrder}.
(** The global read at import time from the environment. *)
Context (GITHUB_EVENT_PATH : string).

(** [d.get(key, default)]; anything but a dict has no [get]. *)
Definition get (d : pyval) (key : string) (default : pyval) : M pyval :=
  match d with
  | PDict m => ret (from_option id default (m !! key))
  | _ => raise (AttributeError (type_name d) "get")
  end.

(** [d[key]] for a string key. *)
Definition subscript (d : pyval) (key : string) : M pyval :=
  match d with
  | PDict m =>
      match m !! key with
      | Some v => ret v
      | None => raise (KeyError key)
      end
  | PList _ => raise (TypeError "list indices must be integers or slices, not str")
  | PStr _ => raise (TypeError "string indices must be integers")
  | _ => raise (TypeError ("'" +:+ type_name d +:+ "' object is not subscriptable"))
  end.

(** [with open(path) as f: json.load(f)] *)
Definition read_json (path : string) : M pyval :=
  match json_load rt path with
  | Loaded v => ret v
  | Unreadable e => raise e
  end.

(** The two [except] clauses name their classes; any other exception goes
    on. *)
Definition load_github_context : M pyval :=
  try_except
    (context <- read_json GITHUB_EVENT_PATH ;;
     ret context)
    (λ e,
       match e with
       | FileNotFoundError _ =>
           print ("ERROR: GitHub event file not found at " +:+ GITHUB_EVENT_PATH) ;;;
           sys_exit 1
       | JSONDecodeError =>
           print "ERROR: Failed to parse GitHub event file" ;;;
           sys_exit 1
       | _ => raise e
       end).

Definition extract_pr_details (context : pyval) : M pr_details :=
  try_except
    (pr <- get context "pull_request" PNone ;;
     when (negb (truthy pr))
       (print "ERROR: This action can only run on pull_request events" ;;;
        sys_exit 1) ;;;
     title <- get pr "title" (PStr "") ;;
     description <- get pr "body" (PStr "") ;;
     number <- get pr "number" PNone ;;
     url <- get pr "html_url" PNone ;;
     repository <- get context "repository" (PDict ∅) ;;
     repo <- get repository "full_name" PNone ;;
     ret {| title := title; description := description; number := number;
            url := url; repo := repo |})
    (λ e,
       print ("ERROR: Failed to extract PR details: " +:+ str_exn rt e) ;;;
       sys_exit 1).

Definition extract_images_from_description (description : string) : list string :=
  let images := [] in
  let markdown_matches := Re.findall markdown_pattern description in
  let images := images ++ markdown_matches in
  let html_matches := Re.findall html_pattern description in
  let images := images ++ html_matches in
  list_set images.

(** [requests.get(url, timeout=...)] *)
Definition http_get (url : string) (timeout : Z) : M response :=
  λ t, match requests_get rt t url with
       | Responded r => (Returned r, t ++ [HttpGet url timeout])
       | Failed e => (Raised e, t ++ [HttpGet url timeout])
       end.

Definition download_image (image_url : string) : M (option bytes) :=
  try_except
    (response <- http_get image_url 10 ;;
     if status_code response =? 200 then ret (Some (content response))
     else
       print ("WARNING: Failed to download image from " +:+ image_url +:+
              ", status: " +:+ Str.of_Z (status_code response)) ;;;
       ret None)
    (λ e,
       print ("WARNING: Failed to download image from " +:+ image_url +:+
              ": " +:+ str_exn rt e) ;;;
       ret None).

(** [model.generate_content(...)] and the [.text] of what it returns. *)
Definition generate (prompt : string) (parts : list image_part) : M string :=
  λ t, match generate_content rt t prompt parts with
       | Answered s => (Returned s, t ++ [GenerateContent prompt parts])
       | Refused e => (Raised e, t ++ [GenerateContent prompt parts])
       end.

(** [if image_data:] on what [download_image] returned. *)
Definition usable (image_data : option bytes) : bool :=
  match image_data with
  | Some (_ :: _) => true
  | _ => false
  end.

(** The [for image_url in ...] loop, with [image_parts] as it stands. *)
Fixpoint download_all (urls : list string) (image_parts : list image_part)
  : M (list image_part) :=
  match urls with
  | [] => ret image_parts
  | image_url :: urls' =>
      image_data <- download_image image_url ;;
      if usable image_data then
        download_all urls'
          (image_parts ++
           [{| mime_type := infer_mime_type image_url;
               data := default [] image_data |}])
      else download_all urls' image_parts
  end.

Definition build_prompt (details : pr_details) : string :=
  "You are a helpful code reviewer AI assistant. Analyze the following pull request and provide a concise, crisp response in exactly 2 lines."
  +:+ newline +:+ newline +:+
  "Pull Request Title: " +:+ Str.str rt (title details) +:+ newline +:+ newline +:+
  "Pull Request Description:" +:+ newline +:+
  Str.str rt (description details) +:+ newline +:+ newline +:+
  "Repository: " +:+ Str.str rt (repo details) +:+ newline +:+ newline +:+
  "Please provide:" +:+ newline +:+
  "1. A brief assessment of the PR (first line)" +:+ newline +:+
  "2. A specific suggestion or observation (second line)" +:+ newline +:+ newline +:+
  "Keep it short, professional, and actionable. Format as plain text, exactly 2 lines.".

(** [re.findall] on anything but a string raises. *)
Definition expect_str (v : pyval) : M string :=
  match v with
  | PStr s => ret s
  | _ => raise (TypeError "expected string or bytes-like object")
  end.

Definition analyze_with_gemini (details : pr_details) : M string :=
  try_except
    (let prompt := build_prompt details in
     text <- expect_str (description details) ;;
     let images_to_analyze := extract_images_from_description text in
     response_text <-
       (match images_to_analyze with
        | _ :: _ =>
            print ("Found " +:+ Str.of_Z (Z.of_nat (length images_to_analyze)) +:+
                   " images in PR description. Attempting to analyze them...") ;;;
            image_parts <- download_all (take 3 images_to_analyze) [] ;;
            match image_parts with
            | _ :: _ => generate prompt image_parts
            | [] => generate prompt []
            end
        | [] => generate prompt []
        end) ;;
     ret (Str.strip response_text))
    (λ e,
       print ("ERROR: Failed to analyze PR with Gemini: " +:+ str_exn rt e) ;;;
       sys_exit 1).

(** [requests.post(url, json=data, headers=headers)] *)
Definition http_post (url : string) (data headers : gmap string string) : M response :=
  λ t, match requests_post rt t url data headers with
       | Responded r => (Returned r, t ++ [HttpPost url data headers])
       | Failed e => (Raised e, t ++ [HttpPost url data headers])
       end.

(** [response.json()] *)
Definition response_json (r : response) : M pyval :=
  match json r with
  | Some v => ret v
  | None => raise JSONDecodeError
  end.

(** The [url] and [data] that [post_comment_on_pr] builds. *)
Definition comment_url (repo pr_number : pyval) : string :=
  "https://api.github.com/repos/" +:+ Str.str rt repo +:+
  "/issues/" +:+ Str.str rt pr_number +:+ "/comments".

Definition comment_data (comment_body : string) : gmap string string :=
  {[ "body" := "ü§ñ **AI Analysis:**" +:+ newline +:+ newline +:+ comment_body ]}.

Definition post_comment_on_pr (self : analyzer) (repo pr_number : pyval)
    (comment_body : string) : M bool :=
  try_except
    (let url := comment_url repo pr_number in
     let data := comment_data comment_body in
     response <- http_post url data (headers self) ;;
     if status_code response =? 201 then
       comment <- response_json response ;;
       print ("‚úÖ Successfully posted comment on PR #" +:+ Str.str rt pr_number) ;;;
       comment_id <- subscript comment "id" ;;
       print ("Comment ID: " +:+ Str.str rt comment_id) ;;;
       ret true
     else
       print ("ERROR: Failed to post comment. Status: " +:+
              Str.of_Z (status_code response)) ;;;
       print ("Response: " +:+ text response) ;;;
       ret false)
    (λ e,
       print ("ERROR: Failed to post comment on PR: " +:+ str_exn rt e) ;;;
       sys_exit 1).

Definition run (self : analyzer) : M unit :=
  print (Str.times "=" 60) ;;;
  print "Starting PR Analysis with Gemini AI" ;;;
  print (Str.times "=" 60) ;;;
  print (newline +:+ "üìÇ Loading GitHub context...") ;;;
  context <- load_github_context ;;
  print "üìù Extracting PR details..." ;;;
  details <- extract_pr_details context ;;
  print ("   PR #" +:+ Str.str rt (number details) +:+ ": " +:+
         Str.str rt (title details)) ;;;
  print ("   Repository: " +:+ Str.str rt (repo details)) ;;;
  print (newline +:+ "ü§ñ Analyzing PR with Gemini AI...") ;;;
  analysis <- analyze_with_gemini details ;;
  print (newline +:+ "üì§ Generated Analysis:") ;;;
  print (Str.times "-" 60) ;;;
  print analysis ;;;
  print (Str.times "-" 60) ;;;
  print (newline +:+ "üí¨ Posting comment on PR...") ;;;
  success <- post_comment_on_pr self (repo details) (number details) analysis ;;
  if success : bool then
    print (newline +:+ Str.times "=" 60) ;;;
    print "‚úÖ PR Analysis and Comment Successfully Completed!" ;;;
    print (Str.times "=" 60)
  else
    print (newline +:+ "‚ùå Failed to post comment on PR") ;;;
    sys_exit 1.

End Methods.

(** The module body: the three variables must be set and not empty
    ([os.getenv] gives [None] for a missing one, and [not] treats the empty
    string alike); [genai.configure] only stores the key; then the analyzer
    is built and run. *)
Definition main (rt : runtime) {order : SetOrder} (environ : gmap string string)
    : M unit :=
  let GITHUB_TOKEN := default "" (environ !! "GITHUB_TOKEN") in
  let GEMINI_API_KEY := default "" (environ !! "GEMINI_API_KEY") in
  let GITHUB_EVENT_PATH := default "" (environ !! "GITHUB_EVENT_PATH") in
  when (String.eqb GITHUB_TOKEN "")
    (print "ERROR: GITHUB_TOKEN is not set" ;;; sys_exit 1) ;;;
  when (String.eqb GEMINI_API_KEY "")
    (print "ERROR: GEMINI_API_KEY is not set" ;;; sys_exit 1) ;;;
  when (String.eqb GITHUB_EVENT_PATH "")
    (print "ERROR: GITHUB_EVENT_PATH is not set" ;;; sys_exit 1) ;;;
  run rt GITHUB_EVENT_PATH (init GITHUB_TOKEN GEMINI_API_KEY).

End PRAnalyzer.

(** ** Sample runtimes, for the concrete runs below *)

Module Samples.

(** How CPython words the exceptions of [Py.exn]. *)
Definition describe (e : exn) : string :=
  match e with
  | AttributeError ty attr =>
      "'" +:+ ty +:+ "' object has no attribute '" +:+ attr +:+ "'"
  | TypeError detail => detail
  | KeyError key => "'" +:+ key +:+ "'"
  | JSONDecodeError => "Expecting value: line 1 column 1 (char 0)"
  | FileNotFoundError path => "[Errno 2] No such file or directory: '" +:+ path +:+ "'"
  | OSError detail => detail
  | RequestException detail => detail
  | ModelError detail => detail
  end.

(** A world that answers every GET with [g], every POST with [p] and every
    model call with [a]. *)
Definition scripted (g p : http_outcome) (a : model_outcome) : runtime :=
  {| requests_get := λ _ _, g;
     requests_post := λ _ _ _ _, p;
     generate_content := λ _ _ _, a;
     json_load := λ path, Unreadable (FileNotFoundError path);
     str_exn := describe;
     repr := λ v, "<" +:+ type_name v +:+ ">" |}.

(** The same world with the event file holding [f]. *)
Definition with_event (f : file_outcome) (rt : runtime) : runtime :=
  {| requests_get := requests_get rt;
     requests_post := requests_post rt;
     generate_content := generate_content rt;
     json_load := λ _, f;
     str_exn := str_exn rt;
     repr := repr rt |}.

Definition offline : runtime :=
  scripted (Failed (RequestException "connection refused"))
           (Failed (RequestException "connection refused"))
           (Refused (ModelError "unavailable")).

Definition reply (status : Z) (body : option pyval) : response :=
  {| status_code := status; content := []; text := ""; json := body |}.

(** U+00A0, U+2003 and U+0085 in UTF-8. *)
Definition nbsp : string := String "194" (String "160" "").
Definition em_space : string := String "226" (String "128" (String "131" "")).
Definition next_line : string := String "194" (String "133" "").

Definition png_bytes : bytes := [Byte.x89; Byte.x50; Byte.x4e; Byte.x47].

Definition image_reply (status : Z) : response :=
  {| status_code := status; content := png_bytes; text := ""; json := None |}.

End Samples.

(** ** Vocabulary of the statements *)

Module Spec.

(** [s] ends with [suffix], letter for letter. *)
Definition has_suffix (suffix s : string) : Prop :=
  ∃ before, s = before +:+ suffix.

(** [s] ends with [suffix] up to the case of its letters. *)
Definition has_suffix_ci (suffix s : string) : Prop :=
  ∃ before ending, s = before +:+ ending ∧ Str.lower ending = suffix.

(** [![alt](url)] *)
Definition markdown_image (s : string) : Prop :=
  ∃ alt url, s = "![" +:+ alt +:+ "](" +:+ url +:+ ")".

(** [<img ... src=] followed by a quoted URL. *)
Definition html_image (s : string) : Prop :=
  ∃ attrs q url q',
    q ∈ PRAnalyzer.quotes ∧ q' ∈ PRAnalyzer.quotes ∧
    s = "<img" +:+ attrs +:+ "src=" +:+ String q url +:+ String q' "".



(** Some substring of [text] satisfies [P]. *)
Definition contains (P : string → Prop) (text : string) : Prop :=
  ∃ before s after, text = before +:+ s +:+ after ∧ P s.

(** The events of a trace that reach the network or the model. *)
Fixpoint outbound (t : trace) : trace :=
  match t with
  | [] => []
  | Stdout _ :: t' => outbound t'
  | e :: t' => e :: outbound t'
  end.

(** The URLs requested with GET in a trace, oldest first. *)
Fixpoint fetched (t : trace) : list string :=
  match t with
  | [] => []
  | HttpGet url _ :: t' => url :: fetched t'
  | _ :: t' => fetched t'
  end.

(** The image lists handed to the model in a trace, one per call. *)
Fixpoint attached (t : trace) : list (list image_part) :=
  match t with
  | [] => []
  | GenerateContent _ parts :: t' => parts :: attached t'
  | _ :: t' => attached t'
  end.

(** The images the analyzer works on: none unless the description is a
    string. *)
Definition images_of {order : SetOrder} (details : PRAnalyzer.pr_details)
    : list string :=
  match PRAnalyzer.description details with
  | PStr text => PRAnalyzer.extract_images_from_description text
  | _ => []
  end.

(** The response body is a JSON object with an [id] field. *)
Definition has_id (r : response) : Prop :=
  ∃ (m : gmap string pyval) v, json r = Some (PDict m) ∧ m !! "id" = Some v.

(** The number of different strings in a list. *)
Definition distinct (l : list string) : nat := length (remove_dups l).

(** How many times [u] occurs in a list. *)
Definition occurrences (u : string) (l : list string) : nat :=
  length (filter (λ x, x = u) l).

(** The character [c] occurs in [s]. *)
Fixpoint has_char (c : ascii) (s : string) : bool :=
  match s with
  | EmptyString => false
  | String x s' => (Ascii.eqb x c || has_char c s')%bool
  end.

(** Every character of [s] is in the set. *)
Fixpoint all_in (cs : Re.charset) (s : string) : bool :=
  match s with
  | EmptyString => true
  | String c s' => (Re.accepts cs c && all_in cs s')%bool
  end.

(** The words a pattern describes, whatever the order in which the matcher
    tries them. *)
Fixpoint lang (p : Re.pattern) (w : string) : Prop :=
  match p with
  | [] => w = ""
  | Re.One cs :: p' =>
      ∃ c w', w = String c w' ∧ Re.accepts cs c = true ∧ lang p' w'
  | Re.MinStar cs :: p' =>
      ∃ u w', w = u +:+ w' ∧ all_in cs u = true ∧ lang p' w'
  | Re.MaxPlus cs :: p' =>
      ∃ c u w', w = String c (u +:+ w') ∧ Re.accepts cs c = true ∧
                all_in cs u = true ∧ lang p' w'
  | Re.MarkOpen :: p' => lang p' w
  | Re.MarkClose :: p' => lang p' w
  end.

(** *** Descriptions built from parts

    A description written as a sequence of plain text, Markdown images and
    HTML img tags. *)

Inductive item :=
| Text (s : string)
| MarkdownImage (alt url : string)
| HtmlImage (attrs : string) (q : ascii) (url : string).

Definition render (i : item) : string :=
  match i with
  | Text s => s
  | MarkdownImage alt url => "![" +:+ alt +:+ "](" +:+ url +:+ ")"
  | HtmlImage attrs q url =>
      "<img" +:+ attrs +:+ "src=" +:+ String q url +:+ String q ">"
  end.

Fixpoint render_all (items : list item) : string :=
  match items with
  | [] => ""
  | i :: items' => render i +:+ render_all items'
  end.

Fixpoint markdown_urls (items : list item) : list string :=
  match items with
  | [] => []
  | MarkdownImage _ url :: items' => url :: markdown_urls items'
  | _ :: items' => markdown_urls items'
  end.

Fixpoint html_urls (items : list item) : list string :=
  match items with
  | [] => []
  | HtmlImage _ _ url :: items' => url :: html_urls items'
  | _ :: items' => html_urls items'
  end.

(** No character of [s] is in [cs]. *)
Definition free_of (cs : list ascii) (s : string) : bool :=
  all_in (Re.NotIn cs) s.

(** The parts stay out of each other's way: no plain text, alt text, URL
    or attribute text holds [!] or [<], so nothing but the frame of an image
    starts one; an alt text holds no closing bracket and a Markdown URL no
    closing parenthesis, neither a newline; the attributes of a tag are not
    empty and hold no [>]; the quote of a tag is a single or a double one;
    an HTML URL is not empty, holds no quote and no [>], and does not end
    with [src=]. *)
Definition well_formed (i : item) : bool :=
  match i with
  | Text s => free_of ["!"; "<"]%char s
  | MarkdownImage alt url =>
      (free_of ["!"; "<"; "]"; "010"]%char alt &&
       free_of ["!"; "<"; ")"; "010"]%char url)%bool
  | HtmlImage attrs q url =>
      (negb (String.eqb attrs "") && free_of ["!"; "<"; ">"]%char attrs &&
       Re.inb q PRAnalyzer.quotes &&
       negb (String.eqb url "") && free_of ["!"; "<"; ">"; "034"; "'"]%char url &&
       negb (Str.endswith url "src="))%bool
  end.

(** What follows [<img[^>]+] in the HTML pattern: [src=], a quote, the
    group and a quote. *)
Definition src_pattern : Re.pattern :=
  Re.lit "src=" ++
  [Re.One (Re.In PRAnalyzer.quotes); Re.MarkOpen; Re.MaxPlus (Re.NotIn PRAnalyzer.quotes);
   Re.MarkClose; Re.One (Re.In PRAnalyzer.quotes)].

(** The GET requests the analyzer makes for a list of URLs. *)
Definition gets (urls : list string) : trace :=
  map (λ u, HttpGet u 10) urls.

(** What a part attached to a model call must be: data that is not empty,
    and the MIME type of one of the URLs. *)
Definition part_of (urls : list string) (p : image_part) : Prop :=
  data p ≠ [] ∧ ∃ u, u ∈ urls ∧ mime_type p = PRAnalyzer.infer_mime_type u.

(** An event for which [extract_pr_details] returns a record. *)
Definition well_shaped (context : pyval) : Prop :=
  ∃ fields pr : gmap string pyval,
    context = PDict fields ∧
    fields !! "pull_request" = Some (PDict pr) ∧ pr ≠ ∅ ∧
    (∀ v, fields !! "repository" = Some v → ∃ m, v = PDict m).

(** A POST event. *)
Definition is_post (e : event) : Prop :=
  match e with
  | HttpPost _ _ _ => True
  | _ => False
  end.

End Spec.

(** * Properties *)

Import PRAnalyzer Spec.

(** ** The PR extractor *)

Section Extractor.
Context (rt : runtime).

Lemma truthy_dict (m : gmap string pyval) : truthy (PDict m) = false ↔ m = ∅.
Proof.
  cbn. rewrite negb_false_iff, Nat.eqb_eq. apply map_size_empty_iff.
Qed.

(** Whatever [pull_request] is bound to, a falsy value is refused with the
    unsupported-event message and exit status 1. *)
Lemma extract_pr_details_falsy (fields : gmap string pyval) t :
  truthy (from_option id PNone (fields !! "pull_request")) = false →
  extract_pr_details rt (PDict fields) t =
    (Exited 1, t ++ [Stdout "ERROR: This action can only run on pull_request events"]).
Proof.
  intros Hf. unfold extract_pr_details, try_except, bind, get, ret. cbn.
  rewrite Hf. reflexivity.
Qed.

(** What the extractor returns on a truthy [pull_request] object when
    [repository] is absent or an object. *)
Lemma extract_pr_details_object (fields pr : gmap string pyval) t :
  fields !! "pull_request" = Some (PDict pr) →
  pr ≠ ∅ →
  (∀ v, fields !! "repository" = Some v → ∃ m, v = PDict m) →
  extract_pr_details rt (PDict fields) t =
    (Returned
       {| title := from_option id (PStr "") (pr !! "title");
          description := from_option id (PStr "") (pr !! "body");
          number := from_option id PNone (pr !! "number");
          url := from_option id PNone (pr !! "html_url");
          repo := match fields !! "repository" with
                  | Some (PDict m) => from_option id PNone (m !! "full_name")
                  | _ => PNone
                  end |}, t).
Proof.
  intros Hpr Hne Hrepo.
  assert (truthy (PDict pr) = true) as Ht.
  { destruct (truthy (PDict pr)) eqn:E; [done|]. by apply truthy_dict in E. }
  unfold extract_pr_details, try_except, bind, get, ret. cbn.
  rewrite Hpr. cbn [from_option id]. rewrite Ht. cbn.
  destruct (fields !! "repository") as [v|] eqn:Hr; cbn.
  - destruct (Hrepo v eq_refl) as [m ->]. reflexivity.
  - reflexivity.
Qed.
End Extractor.

(** C10. The [pull_request] test of [extract_pr_details] is a truthiness
    test: an event in which [pull_request] is bound to an empty object or to
    null is refused as an unsupported event, and the process exits with
    status 1. *)
Theorem extract_pr_details_truthiness_check
    (rt : runtime) (fields : gmap string pyval) (t : trace) :
  fields !! "pull_request" = Some (PDict ∅) ∨ fields !! "pull_request" = Some PNone →
  extract_pr_details rt (PDict fields) t =
    (Exited 1, t ++ [Stdout "ERROR: This action can only run on pull_request events"]).
Proof.
  intros [H|H]; apply extract_pr_details_falsy; rewrite H; reflexivity.
Qed.

Lemma extract_pr_details_truthiness_check_witness :
  extract_pr_details Samples.offline
    (PDict (<["pull_request" := PDict ∅]> (<["action" := PStr "opened"]> ∅))) [] =
  (Exited 1, [] ++ [Stdout "ERROR: This action can only run on pull_request events"]).
Proof.
  apply extract_pr_details_truthiness_check. left. reflexivity.
Defined.

(** C2, as the code has it.  For every event (a JSON object) whose
    [pull_request] is a non-empty object and whose [repository] is absent or
    an object, [extract_pr_details] returns a record: the title is the
    payload title, or the empty string when it is absent; the description is
    the payload body when present and not null, or the empty string when it
    is absent; number, html_url and the repository full_name are the payload
    fields, or [None] when absent. *)
Theorem extract_pr_details_fields
    (rt : runtime) (fields pr : gmap string pyval) (t : trace) :
  fields !! "pull_request" = Some (PDict pr) →
  pr ≠ ∅ →
  (∀ v, fields !! "repository" = Some v → ∃ m, v = PDict m) →
  ∃ d, extract_pr_details rt (PDict fields) t = (Returned d, t) ∧
    (pr !! "title" = None → title d = PStr "") ∧
    (∀ v, pr !! "title" = Some v → title d = v) ∧
    (pr !! "body" = None → description d = PStr "") ∧
    (∀ v, pr !! "body" = Some v → v ≠ PNone → description d = v) ∧
    number d = from_option id PNone (pr !! "number") ∧
    url d = from_option id PNone (pr !! "html_url") ∧
    (fields !! "repository" = None → repo d = PNone) ∧
    (∀ m, fields !! "repository" = Some (PDict m) →
          repo d = from_option id PNone (m !! "full_name")).
Proof.
  intros Hpr Hne Hrepo. eexists. split.
  - by apply extract_pr_details_object.
  - cbn. repeat split.
    + by intros ->.
    + by intros v ->.
    + by intros ->.
    + by intros v -> _.
    + by intros ->.
    + by intros m ->.
Qed.

Lemma extract_pr_details_fields_witness :
  ∃ d, extract_pr_details Samples.offline
         (PDict (<["pull_request" :=
                     PDict (<["title" := PStr "Fix bug"]>
                            (<["number" := PInt 42]> ∅))]>
                 (<["repository" :=
                      PDict (<["full_name" := PStr "acme/repo"]> ∅)]> ∅))) [] =
       (Returned d, []) ∧
       title d = PStr "Fix bug" ∧ description d = PStr "" ∧
       number d = PInt 42 ∧ url d = PNone ∧ repo d = PStr "acme/repo".
Proof.
  destruct (extract_pr_details_fields Samples.offline
    (<["pull_request" :=
         PDict (<["title" := PStr "Fix bug"]> (<["number" := PInt 42]> ∅))]>
     (<["repository" := PDict (<["full_name" := PStr "acme/repo"]> ∅)]> ∅))
    (<["title" := PStr "Fix bug"]> (<["number" := PInt 42]> ∅)) [])
    as (d & Hd & _ & Ht & Hb & _ & Hn & Hu & _ & Hr).
  - reflexivity.
  - intros E. apply (f_equal (λ m : gmap string pyval, m !! "title")) in E.
    vm_compute in E. discriminate.
  - intros v Hv. vm_compute in Hv. injection Hv as <-. eauto.
  - exists d. split; [exact Hd|].
    split; [apply Ht; reflexivity|].
    split; [apply Hb; reflexivity|].
    split; [exact Hn|]. split; [exact Hu|].
    exact (eq_trans (Hr (<["full_name" := PStr "acme/repo"]> ∅) eq_refl) eq_refl).
Defined.

(** C2 as stated fails: an event with an empty [pull_request] object holds a
    pull_request object, and no record is returned for it. *)
Lemma extract_pr_details_empty_pull_request :
  (<["pull_request" := PDict ∅]>
   (<["repository" := PDict (<["full_name" := PStr "acme/repo"]> ∅)]> ∅)
     : gmap string pyval) !! "pull_request" = Some (PDict ∅) ∧
  ¬ ∃ d t',
      extract_pr_details Samples.offline
        (PDict (<["pull_request" := PDict ∅]>
                (<["repository" :=
                     PDict (<["full_name" := PStr "acme/repo"]> ∅)]> ∅))) [] =
      (Returned d, t').
Proof.
  split; [reflexivity|]. intros (d & t' & H).
  rewrite extract_pr_details_falsy in H by reflexivity. discriminate.
Qed.

(** A null body is not defaulted: the description is [None], not the empty
    string. *)
Example extract_pr_details_null_body :
  extract_pr_details Samples.offline
    (PDict (<["pull_request" :=
                PDict (<["title" := PStr "t"]> (<["body" := PNone]> ∅))]> ∅)) [] =
  (Returned {| title := PStr "t"; description := PNone; number := PNone;
               url := PNone; repo := PNone |}, []).
Proof. reflexivity. Qed.

(** ** The image fetcher *)

Section Fetcher.
Context (rt : runtime).

Lemma download_image_run image_url t :
  download_image rt image_url t =
    match requests_get rt t image_url with
    | Responded r =>
        if status_code r =? 200
        then (Returned (Some (content r)), t ++ [HttpGet image_url 10])
        else (Returned None,
              (t ++ [HttpGet image_url 10]) ++
              [Stdout ("WARNING: Failed to download image from " +:+ image_url +:+
                       ", status: " +:+ Str.of_Z (status_code r))])
    | Failed e =>
        (Returned None,
         (t ++ [HttpGet image_url 10]) ++
         [Stdout ("WARNING: Failed to download image from " +:+ image_url +:+
                  ": " +:+ str_exn rt e)])
    end.
Proof.
  unfold download_image, try_except, bind, http_get.
  destruct (requests_get rt t image_url) as [r|e]; [|reflexivity].
  destruct (status_code r =? 200); reflexivity.
Qed.

End Fetcher.

(** C5. [download_image] returns the bytes of the response exactly when the
    transport answers with status 200; for any other status, and when the
    transport raises (a timeout included), it returns [None]; it never raises
    and never exits. *)
Theorem download_image_iff_200 (rt : runtime) (image_url : string) (t : trace) :
  (∀ bs, (download_image rt image_url t).1 = Returned (Some bs) ↔
         ∃ r, requests_get rt t image_url = Responded r ∧
              status_code r = 200 ∧ content r = bs) ∧
  ((¬ ∃ r, requests_get rt t image_url = Responded r ∧ status_code r = 200) →
   (download_image rt image_url t).1 = Returned None) ∧
  (∃ v, (download_image rt image_url t).1 = Returned v).
Proof.
  rewrite download_image_run.
  destruct (requests_get rt t image_url) as [r|e].
  - destruct (Z.eqb_spec (status_code r) 200) as [E|E]; cbn.
    + split; [|split; [|eauto]].
      * intros bs. split.
        -- intros [= <-]. eauto.
        -- intros (r' & [= <-] & _ & <-). reflexivity.
      * intros H. exfalso. apply H. eauto.
    + split; [|split; [|eauto]].
      * intros bs. split; [discriminate|].
        intros (r' & [= <-] & E' & _). contradiction.
      * reflexivity.
  - cbn. split; [|split; [|eauto]].
    + intros bs. split; [discriminate|]. intros (r' & [=] & _).
    + reflexivity.
Qed.

Example download_image_ok :
  (download_image
     (Samples.scripted (Responded (Samples.image_reply 200))
        (Failed JSONDecodeError) (Refused JSONDecodeError))
     "http://x/a.png" []).1 = Returned (Some Samples.png_bytes).
Proof. reflexivity. Qed.

Example download_image_404 :
  download_image
    (Samples.scripted (Responded (Samples.image_reply 404))
       (Failed JSONDecodeError) (Refused JSONDecodeError))
    "http://x/a.png" [] =
  (Returned None,
   [HttpGet "http://x/a.png" 10;
    Stdout "WARNING: Failed to download image from http://x/a.png, status: 404"]).
Proof. reflexivity. Qed.

Example download_image_timeout :
  (download_image
     (Samples.scripted (Failed (RequestException "Read timed out."))
        (Failed JSONDecodeError) (Refused JSONDecodeError))
     "http://x/a.png" []).1 = Returned None.
Proof. reflexivity. Qed.

(** ** The comment poster *)

Section Poster.
Context (rt : runtime) (self : analyzer) (repo pr_number : pyval)
  (comment_body : string) (t : trace) (r : response).
Hypothesis responded :
  requests_post rt t (comment_url rt repo pr_number)
    (comment_data comment_body) (headers self) = Responded r.

Lemma post_comment_other_status :
  status_code r ≠ 201 →
  post_comment_on_pr rt self repo pr_number comment_body t =
    (Returned false,
     ((t ++ [HttpPost (comment_url rt repo pr_number)
               (comment_data comment_body) (headers self)]) ++
      [Stdout ("ERROR: Failed to post comment. Status: " +:+
               Str.of_Z (status_code r))]) ++
     [Stdout ("Response: " +:+ text r)]).
Proof.
  intros Hs. unfold post_comment_on_pr, try_except, bind, http_post.
  rewrite responded. apply Z.eqb_neq in Hs. rewrite Hs. reflexivity.
Qed.

Lemma post_comment_created (m : gmap string pyval) (v : pyval) :
  status_code r = 201 → json r = Some (PDict m) → m !! "id" = Some v →
  (post_comment_on_pr rt self repo pr_number comment_body t).1 = Returned true.
Proof.
  intros Hs Hj Hid.
  unfold post_comment_on_pr, try_except, bind, http_post, response_json.
  rewrite responded, Hs, Hj. cbn. rewrite Hid. reflexivity.
Qed.

Lemma post_comment_unreadable :
  status_code r = 201 → ¬ has_id r →
  ∃ e t',
    post_comment_on_pr rt self repo pr_number comment_body t =
      (Exited 1,
       t' ++ [Stdout ("ERROR: Failed to post comment on PR: " +:+ str_exn rt e)]).
Proof.
  intros Hs Hno.
  unfold post_comment_on_pr, try_except, bind, http_post, response_json.
  rewrite responded, Hs. cbn.
  destruct (json r) as [comment|] eqn:Hj; cbn; [|eauto].
  destruct comment as [| | | | |l|m]; cbn; eauto.
  destruct (m !! "id") as [v|] eqn:Hid; cbn; [|eauto].
  exfalso. apply Hno. exists m, v. auto.
Qed.

End Poster.

(** C1, as the code has it.  For every response to the POST,
    [post_comment_on_pr] returns true if and only if the status is 201 and
    the body is a JSON object with an [id] field; for any other status it
    returns false, without raising or exiting. *)
Theorem post_comment_on_pr_true_iff
    (rt : runtime) (self : analyzer) (repo pr_number : pyval)
    (comment_body : string) (t : trace) (r : response) :
  requests_post rt t (comment_url rt repo pr_number)
    (comment_data comment_body) (headers self) = Responded r →
  ((post_comment_on_pr rt self repo pr_number comment_body t).1 = Returned true ↔
   status_code r = 201 ∧ has_id r) ∧
  (status_code r ≠ 201 →
   (post_comment_on_pr rt self repo pr_number comment_body t).1 = Returned false).
Proof.
  intros Hr. split.
  - split.
    + intros Htrue. destruct (Z.eq_dec (status_code r) 201) as [Hs|Hs].
      * split; [exact Hs|].
        destruct (json r) as [[| | | | | |m]|] eqn:Hj.
        7: destruct (m !! "id") as [v|] eqn:Hid; [by exists m, v|].
        all: destruct (post_comment_unreadable rt self repo pr_number
                         comment_body t r Hr Hs) as (e & t' & He);
          [ intros (m' & v' & Hj' & Hid'); congruence
          | rewrite He in Htrue; discriminate ].
      * rewrite (post_comment_other_status rt self repo pr_number
                   comment_body t r Hr Hs) in Htrue. discriminate.
    + intros (Hs & m & v & Hj & Hid). eapply post_comment_created; eauto.
  - intros Hs.
    by rewrite (post_comment_other_status rt self repo pr_number
                  comment_body t r Hr Hs).
Qed.

Lemma post_comment_on_pr_true_iff_witness :
  ((post_comment_on_pr
      (Samples.scripted (Failed JSONDecodeError)
         (Responded (Samples.reply 201 (Some (PDict (<["id" := PInt 7]> ∅)))))
         (Refused JSONDecodeError))
      (init "tok" "key") (PStr "acme/repo") (PInt 42) "LGTM" []).1 = Returned true ↔
   201 = 201 ∧ has_id (Samples.reply 201 (Some (PDict (<["id" := PInt 7]> ∅))))) ∧
  (201 ≠ 201 →
   (post_comment_on_pr
      (Samples.scripted (Failed JSONDecodeError)
         (Responded (Samples.reply 201 (Some (PDict (<["id" := PInt 7]> ∅)))))
         (Refused JSONDecodeError))
      (init "tok" "key") (PStr "acme/repo") (PInt 42) "LGTM" []).1 = Returned false).
Proof.
  apply (post_comment_on_pr_true_iff
           (Samples.scripted (Failed JSONDecodeError)
              (Responded (Samples.reply 201 (Some (PDict (<["id" := PInt 7]> ∅)))))
              (Refused JSONDecodeError))
           (init "tok" "key") (PStr "acme/repo") (PInt 42) "LGTM" []
           (Samples.reply 201 (Some (PDict (<["id" := PInt 7]> ∅))))).
  reflexivity.
Defined.

(** C1 as stated fails: a response with status 201 whose body is an object
    without [id] does not make [post_comment_on_pr] return true. *)
Lemma post_comment_on_pr_201_without_id :
  status_code (Samples.reply 201 (Some (PDict ∅))) = 201 ∧
  (post_comment_on_pr
     (Samples.scripted (Failed JSONDecodeError)
        (Responded (Samples.reply 201 (Some (PDict ∅))))
        (Refused JSONDecodeError))
     (init "tok" "key") (PStr "acme/repo") (PInt 42) "LGTM" []).1 ≠ Returned true.
Proof. split; [reflexivity|]. vm_compute. discriminate. Qed.

(** C9. When the response has status 201 and its body is not a JSON object
    with an [id] field, [post_comment_on_pr] does not return true: the
    exception raised while reading the id reaches the handler of the method,
    which prints its message and exits with status 1. *)
Theorem post_comment_on_pr_201_unreadable_exits
    (rt : runtime) (self : analyzer) (repo pr_number : pyval)
    (comment_body : string) (t : trace) (r : response) :
  requests_post rt t (comment_url rt repo pr_number)
    (comment_data comment_body) (headers self) = Responded r →
  status_code r = 201 →
  ¬ has_id r →
  (post_comment_on_pr rt self repo pr_number comment_body t).1 ≠ Returned true ∧
  ∃ e t',
    post_comment_on_pr rt self repo pr_number comment_body t =
      (Exited 1,
       t' ++ [Stdout ("ERROR: Failed to post comment on PR: " +:+ str_exn rt e)]).
Proof.
  intros Hr Hs Hno.
  destruct (post_comment_unreadable rt self repo pr_number comment_body t r
              Hr Hs Hno) as (e & t' & He).
  split; [by rewrite He|]. eauto.
Qed.

Lemma post_comment_on_pr_201_unreadable_exits_witness :
  (post_comment_on_pr
     (Samples.scripted (Failed JSONDecodeError)
        (Responded (Samples.reply 201 None)) (Refused JSONDecodeError))
     (init "tok" "key") (PStr "acme/repo") (PInt 42) "LGTM" []).1 ≠ Returned true ∧
  ∃ e t',
    post_comment_on_pr
      (Samples.scripted (Failed JSONDecodeError)
         (Responded (Samples.reply 201 None)) (Refused JSONDecodeError))
      (init "tok" "key") (PStr "acme/repo") (PInt 42) "LGTM" [] =
    (Exited 1,
     t' ++ [Stdout ("ERROR: Failed to post comment on PR: " +:+
                    Samples.describe e)]).
Proof.
  apply (post_comment_on_pr_201_unreadable_exits
           (Samples.scripted (Failed JSONDecodeError)
              (Responded (Samples.reply 201 None)) (Refused JSONDecodeError))
           (init "tok" "key") (PStr "acme/repo") (PInt 42) "LGTM" []
           (Samples.reply 201 None)).
  - reflexivity.
  - reflexivity.
  - intros (m & v & Hj & _). discriminate Hj.
Defined.

(** The trace of a successful post: the request, then the two lines. *)
Example post_comment_on_pr_created_trace :
  (post_comment_on_pr
     (Samples.scripted (Failed JSONDecodeError)
        (Responded (Samples.reply 201 (Some (PDict (<["id" := PInt 7]> ∅)))))
        (Refused JSONDecodeError))
     (init "tok" "key") (PStr "acme/repo") (PInt 42) "LGTM" []).2 =
  [HttpPost "https://api.github.com/repos/acme/repo/issues/42/comments"
     (comment_data "LGTM") (headers (init "tok" "key"));
   Stdout "‚úÖ Successfully posted comment on PR #42";
   Stdout "Comment ID: 7"].
Proof. reflexivity. Qed.

(** A body that is an object without [id]: the success line is already
    printed when the subscript raises. *)
Example post_comment_on_pr_missing_id_trace :
  post_comment_on_pr
    (Samples.scripted (Failed JSONDecodeError)
       (Responded (Samples.reply 201 (Some (PDict ∅))))
       (Refused JSONDecodeError))
    (init "tok" "key") (PStr "acme/repo") (PInt 42) "LGTM" [] =
  (Exited 1,
   [HttpPost "https://api.github.com/repos/acme/repo/issues/42/comments"
      (comment_data "LGTM") (headers (init "tok" "key"));
    Stdout "‚úÖ Successfully posted comment on PR #42";
    Stdout "ERROR: Failed to post comment on PR: 'id'"]).
Proof. reflexivity. Qed.

(** ** Strings: append, suffixes and case *)

Section StringFacts.

Lemma append_cons c (s s' : string) : String c s +:+ s' = String c (s +:+ s').
Proof. reflexivity. Qed.

Lemma append_empty_l (s : string) : "" +:+ s = s.
Proof. reflexivity. Qed.

Lemma append_empty_r (s : string) : s +:+ "" = s.
Proof. induction s as [|c s IH]; [done|]. by rewrite append_cons, IH. Qed.

Lemma append_assoc (a b c : string) : (a +:+ b) +:+ c = a +:+ (b +:+ c).
Proof. induction a as [|x a IH]; [done|]. by rewrite !append_cons, IH. Qed.

Lemma append_length (a b : string) :
  String.length (a +:+ b) = (String.length a + String.length b)%nat.
Proof. induction a as [|x a IH]; [done|]. rewrite append_cons. cbn. by rewrite IH. Qed.

Lemma append_eq_empty (a b : string) : a +:+ b = "" → a = "" ∧ b = "".
Proof. destruct a; [done|]. rewrite append_cons. discriminate. Qed.

Lemma lower_app (a b : string) : Str.lower (a +:+ b) = Str.lower a +:+ Str.lower b.
Proof. induction a as [|x a IH]; [done|]. rewrite append_cons. cbn. by rewrite IH. Qed.

Lemma endswith_unfold (s suffix : string) :
  Str.endswith s suffix =
    (String.eqb s suffix ||
     match s with
     | EmptyString => false
     | String _ s' => Str.endswith s' suffix
     end)%bool.
Proof. destruct s; reflexivity. Qed.

(** [endswith] decides [has_suffix]. *)
Lemma endswith_spec (s suffix : string) :
  Str.endswith s suffix = true ↔ has_suffix suffix s.
Proof.
  induction s as [|c s IH]; rewrite endswith_unfold, orb_true_iff, String.eqb_eq.
  - split.
    + intros [<-|?]; [by exists ""|done].
    + intros [before E]. symmetry in E. apply append_eq_empty in E as [_ ->]. by left.
  - rewrite IH. split.
    + intros [<-|[before ->]]; [by exists ""|]. by exists (String c before).
    + intros [[|c' before] E]; [by left|].
      rewrite append_cons in E. injection E as <- ->. right. by exists before.
Qed.

(** The test of the code, on the lowercased URL, decides [has_suffix_ci]. *)
Lemma endswith_lower_spec (s suffix : string) :
  Str.endswith (Str.lower s) suffix = true ↔ has_suffix_ci suffix s.
Proof.
  split.
  - induction s as [|c s IH]; rewrite endswith_unfold, orb_true_iff, String.eqb_eq.
    + intros [E|?]; [|done]. by exists "", "".
    + intros [E|E]; [by exists "", (String c s)|].
      destruct (IH E) as (before & ending & -> & El).
      by exists (String c before), ending.
  - intros (before & ending & -> & <-). apply endswith_spec.
    exists (Str.lower before). apply lower_app.
Qed.

Lemma has_suffix_ci_of_has_suffix (s suffix : string) :
  Str.lower suffix = suffix → has_suffix suffix s → has_suffix_ci suffix s.
Proof. intros El [before ->]. by exists before, suffix. Qed.

Lemma endswith_last_char (s suffix : string) :
  suffix ≠ "" → Str.endswith s suffix = true → Str.last_char s = Str.last_char suffix.
Proof.
  intros Hne. induction s as [|c s IH]; rewrite endswith_unfold, orb_true_iff, String.eqb_eq.
  - by intros [<-|?].
  - intros [<-|E]; [done|]. rewrite <- (IH E).
    destruct s; [|done]. rewrite endswith_unfold in E. cbn in E.
    destruct suffix; [done|discriminate].
Qed.

(** Two suffixes with different last characters exclude each other. *)
Lemma endswith_exclusive (s suffix suffix' : string) :
  suffix ≠ "" → suffix' ≠ "" → Str.last_char suffix ≠ Str.last_char suffix' →
  Str.endswith s suffix = true → Str.endswith s suffix' = false.
Proof.
  intros Hne Hne' Hl E. destruct (Str.endswith s suffix') eqn:E'; [|done].
  apply endswith_last_char in E, E'; [|done..]. congruence.
Qed.

End StringFacts.

(** Bring appends to the form [String c (... +:+ ...)], nested to the right. *)
Ltac norm_append := repeat (progress (rewrite ?append_cons, ?append_empty_l, ?append_assoc)).

(** ** The MIME type of an image *)

Lemma infer_mime_type_endswith (image_url : string) :
  let low := Str.lower image_url in
  (Str.endswith low ".png" = true → infer_mime_type image_url = "image/png") ∧
  (Str.endswith low ".gif" = true → infer_mime_type image_url = "image/gif") ∧
  (Str.endswith low ".webp" = true → infer_mime_type image_url = "image/webp") ∧
  (Str.endswith low ".png" = false → Str.endswith low ".gif" = false →
   Str.endswith low ".webp" = false → infer_mime_type image_url = "image/jpeg").
Proof.
  unfold infer_mime_type. repeat split.
  - by intros ->.
  - intros E.
    rewrite (endswith_exclusive _ ".gif" ".png") by done. by rewrite E.
  - intros E.
    rewrite (endswith_exclusive _ ".webp" ".png") by done.
    rewrite (endswith_exclusive _ ".webp" ".gif") by done. by rewrite E.
  - by intros -> -> ->.
Qed.

(** C4, as the code has it.  The suffix test ignores the case of the
    letters: the MIME type is image/png when the URL ends with [.png] in any
    letter case, image/gif for [.gif], image/webp for [.webp], and
    image/jpeg for every URL with none of the three endings in any letter
    case. *)
Theorem infer_mime_type_by_suffix (image_url : string) :
  (has_suffix_ci ".png" image_url → infer_mime_type image_url = "image/png") ∧
  (has_suffix_ci ".gif" image_url → infer_mime_type image_url = "image/gif") ∧
  (has_suffix_ci ".webp" image_url → infer_mime_type image_url = "image/webp") ∧
  (¬ has_suffix_ci ".png" image_url → ¬ has_suffix_ci ".gif" image_url →
   ¬ has_suffix_ci ".webp" image_url → infer_mime_type image_url = "image/jpeg").
Proof.
  destruct (infer_mime_type_endswith image_url) as (Hp & Hg & Hw & Hj).
  rewrite <- !endswith_lower_spec. repeat split; [done..|].
  intros E1%not_true_is_false E2%not_true_is_false E3%not_true_is_false. auto.
Qed.

(** The three endings as the specification writes them, in lower case, are
    recognised. *)
Lemma infer_mime_type_lowercase_suffix (image_url : string) :
  (has_suffix ".png" image_url → infer_mime_type image_url = "image/png") ∧
  (has_suffix ".gif" image_url → infer_mime_type image_url = "image/gif") ∧
  (has_suffix ".webp" image_url → infer_mime_type image_url = "image/webp").
Proof.
  destruct (infer_mime_type_endswith image_url) as (Hp & Hg & Hw & _).
  repeat split; intros H%(has_suffix_ci_of_has_suffix _ _ eq_refl);
    apply endswith_lower_spec in H; auto.
Qed.

(** C4 as stated fails: a URL that ends with none of [.png], [.gif],
    [.webp] as written, and is not given image/jpeg. *)
Lemma infer_mime_type_uppercase_png :
  ¬ has_suffix ".png" "http://x/A.PNG" ∧
  ¬ has_suffix ".gif" "http://x/A.PNG" ∧
  ¬ has_suffix ".webp" "http://x/A.PNG" ∧
  infer_mime_type "http://x/A.PNG" ≠ "image/jpeg".
Proof.
  rewrite <- !endswith_spec. repeat split; vm_compute; discriminate.
Qed.

Example infer_mime_type_samples :
  map infer_mime_type
    ["http://x/a.png"; "http://x/a.gif"; "http://x/a.webp"; "http://x/a.jpg";
     "http://x/a"; "http://x/a.png?raw=1"; "http://x/A.PNG"; "http://x/a.Gif"] =
  ["image/png"; "image/gif"; "image/webp"; "image/jpeg";
   "image/jpeg"; "image/jpeg"; "image/png"; "image/gif"].
Proof. reflexivity. Qed.

(** ** The image extractor: what [list(set(...))] gives *)

Section Extractor_sets.
Context {order : SetOrder}.

Lemma extract_images_elem (description u : string) :
  u ∈ extract_images_from_description description ↔
  u ∈ Re.findall markdown_pattern description ∨
  u ∈ Re.findall html_pattern description.
Proof.
  unfold extract_images_from_description.
  rewrite list_set_elem. cbn. apply elem_of_app.
Qed.

Lemma extract_images_NoDup (description : string) :
  NoDup (extract_images_from_description description).
Proof. apply list_set_NoDup. Qed.

Lemma occurrences_absent (u : string) (l : list string) :
  u ∉ l → occurrences u l = 0%nat.
Proof.
  unfold occurrences. induction l as [|x l IH]; [done|].
  intros [Hx Hl]%not_elem_of_cons. rewrite filter_cons_False by congruence. auto.
Qed.

Lemma occurrences_NoDup (u : string) (l : list string) :
  NoDup l → u ∈ l → occurrences u l = 1%nat.
Proof.
  induction 1 as [|x l Hx Hl IH].
  - by intros ?%elem_of_nil.
  - intros [->|Hu]%elem_of_cons; unfold occurrences.
    + rewrite filter_cons_True by done. cbn. f_equal. by apply occurrences_absent.
    + rewrite filter_cons_False; [by apply IH|]. intros ->. contradiction.
Qed.

Lemma occurrences_le_1 (u : string) (l : list string) :
  NoDup l → (occurrences u l ≤ 1)%nat.
Proof.
  intros Hl. destruct (decide (u ∈ l)) as [Hu|Hu].
  - rewrite occurrences_NoDup by done. lia.
  - rewrite occurrences_absent by done. lia.
Qed.

(** A duplicate-free list with a single member is that member alone. *)
Lemma NoDup_singleton_elem (u : string) (l : list string) :
  NoDup l → (∀ x, x ∈ l ↔ x = u) → l = [u].
Proof.
  intros Hl Hm. apply Permutation_singleton_r, NoDup_Permutation; [done|apply NoDup_singleton|].
  intros x. rewrite Hm. symmetry. apply list_elem_of_singleton.
Qed.

Lemma distinct_app_disjoint (l k r : list string) :
  NoDup r → (∀ x, x ∈ r ↔ x ∈ l ∨ x ∈ k) → (∀ x, x ∈ l → x ∉ k) →
  length r = (distinct l + distinct k)%nat.
Proof.
  intros Hr Hm Hd. unfold distinct. rewrite <- length_app.
  apply Permutation_length, NoDup_Permutation; [done| |].
  - apply NoDup_app. split; [apply NoDup_remove_dups|].
    split; [|apply NoDup_remove_dups].
    intros x. rewrite !elem_of_remove_dups. apply Hd.
  - intros x. rewrite Hm, elem_of_app, !elem_of_remove_dups. done.
Qed.

End Extractor_sets.

(** The set law of the result, whatever the two patterns capture: the list
    never holds a URL twice, and a URL captured by both patterns is in it
    exactly once. *)
Theorem extract_images_dedup {order : SetOrder} (description : string) :
  NoDup (extract_images_from_description description) ∧
  (∀ u, (occurrences u (extract_images_from_description description) ≤ 1)%nat) ∧
  (∀ u, u ∈ Re.findall markdown_pattern description →
        u ∈ Re.findall html_pattern description →
        occurrences u (extract_images_from_description description) = 1%nat).
Proof.
  split; [apply extract_images_NoDup|]. split.
  - intros u. apply occurrences_le_1, extract_images_NoDup.
  - intros u Hm Hh. apply occurrences_NoDup; [apply extract_images_NoDup|].
    apply extract_images_elem. by left.
Qed.

(** Scenario C, under every order of the set. *)
Example extract_images_scenario_C {order : SetOrder} :
  extract_images_from_description
    "![shot](http://x/a.png) and <img src='http://x/a.png'>" =
  ["http://x/a.png"].
Proof.
  apply NoDup_singleton_elem; [apply extract_images_NoDup|].
  intros x. rewrite extract_images_elem.
  change (x ∈ ["http://x/a.png"] ∨ x ∈ ["http://x/a.png"] ↔ x = "http://x/a.png").
  rewrite list_elem_of_singleton. tauto.
Qed.

(** The count of the result in terms of what the two patterns capture:
    with [N] distinct captures of the Markdown pattern, [M] of the HTML
    pattern and none in common, the list has [N + M] entries. *)
Theorem extract_images_count {order : SetOrder} (description : string) (N M : nat) :
  distinct (Re.findall markdown_pattern description) = N →
  distinct (Re.findall html_pattern description) = M →
  (∀ u, u ∈ Re.findall markdown_pattern description →
        u ∉ Re.findall html_pattern description) →
  NoDup (extract_images_from_description description) ∧
  length (extract_images_from_description description) = (N + M)%nat ∧
  (∀ u, u ∈ extract_images_from_description description ↔
        u ∈ Re.findall markdown_pattern description ∨
        u ∈ Re.findall html_pattern description).
Proof.
  intros <- <- Hd. split; [apply extract_images_NoDup|]. split.
  - apply distinct_app_disjoint; [apply extract_images_NoDup| |done].
    apply extract_images_elem.
  - apply extract_images_elem.
Qed.

Lemma extract_images_count_witness :
  NoDup (@extract_images_from_description gset_order
           "![a](http://x/1.png) <img src='http://x/2.gif'> ![b](http://x/3.png) ![c](http://x/1.png)") ∧
  length (@extract_images_from_description gset_order
            "![a](http://x/1.png) <img src='http://x/2.gif'> ![b](http://x/3.png) ![c](http://x/1.png)") = (2 + 1)%nat ∧
  (∀ u, u ∈ @extract_images_from_description gset_order
              "![a](http://x/1.png) <img src='http://x/2.gif'> ![b](http://x/3.png) ![c](http://x/1.png)" ↔
        u ∈ Re.findall markdown_pattern
              "![a](http://x/1.png) <img src='http://x/2.gif'> ![b](http://x/3.png) ![c](http://x/1.png)" ∨
        u ∈ Re.findall html_pattern
              "![a](http://x/1.png) <img src='http://x/2.gif'> ![b](http://x/3.png) ![c](http://x/1.png)").
Proof.
  apply (@extract_images_count gset_order
           "![a](http://x/1.png) <img src='http://x/2.gif'> ![b](http://x/3.png) ![c](http://x/1.png)"
           2 1).
  - vm_compute. reflexivity.
  - vm_compute. reflexivity.
  - intros u Hm Hh. vm_compute in Hm, Hh.
    apply list_elem_of_singleton in Hh as ->.
    repeat (apply elem_of_cons in Hm as [Hm|Hm]; [discriminate Hm|]).
    by apply elem_of_nil in Hm.
Defined.

(** ** The matcher is sound for the language of its pattern *)

Section Matcher.

Lemma min_star_sound {R} cs (k : string → Re.marks → option R) s m r :
  Re.min_star cs k s m = Some r →
  ∃ u s', s = u +:+ s' ∧ all_in cs u = true ∧ k s' m = Some r.
Proof.
  induction s as [|c s IH]; cbn.
  - destruct (k "" m) eqn:Hk; [|done]. intros [= <-]. by exists "", "".
  - destruct (k (String c s) m) eqn:Hk.
    + intros [= <-]. by exists "", (String c s).
    + destruct (Re.accepts cs c) eqn:Hc; [|done].
      intros (u & s' & -> & Hu & Hr)%IH.
      exists (String c u), s'. cbn. by rewrite Hc, Hu.
Qed.

Lemma max_star_sound {R} cs (k : string → Re.marks → option R) s m r :
  Re.max_star cs k s m = Some r →
  ∃ u s', s = u +:+ s' ∧ all_in cs u = true ∧ k s' m = Some r.
Proof.
  induction s as [|c s IH]; cbn.
  - intros Hk. by exists "", "".
  - destruct (Re.accepts cs c) eqn:Hc.
    + destruct (Re.max_star cs k s m) eqn:Hs.
      * intros [= <-]. destruct (IH eq_refl) as (u & s' & -> & Hu & Hr).
        exists (String c u), s'. cbn. by rewrite Hc, Hu.
      * intros Hk. by exists "", (String c s).
    + intros Hk. by exists "", (String c s).
Qed.

Lemma exec_sound p s m m' rest :
  Re.exec p s m = Some (m', rest) → ∃ w, s = w +:+ rest ∧ lang p w.
Proof.
  revert s m. induction p as [|o p IH]; intros s m; cbn.
  - intros [= _ <-]. by exists "".
  - destruct o as [cs|cs|cs| |].
    + destruct s as [|c s]; [done|]. destruct (Re.accepts cs c) eqn:Hc; [|done].
      intros (w & -> & Hw)%IH. exists (String c w). split; [done|]. cbn. eauto.
    + intros (u & s' & -> & Hu & (w & -> & Hw)%IH)%min_star_sound.
      exists (u +:+ w). split; [by rewrite append_assoc|]. cbn. eauto.
    + destruct s as [|c s]; [done|]. destruct (Re.accepts cs c) eqn:Hc; [|done].
      intros (u & s' & -> & Hu & (w & -> & Hw)%IH)%max_star_sound.
      exists (String c (u +:+ w)). split; [by rewrite append_cons, append_assoc|].
      cbn. eauto 10.
    + intros (w & -> & Hw)%IH. eauto.
    + intros (w & -> & Hw)%IH. eauto.
Qed.

(** Where the pattern matches at no position, the scan finds nothing. *)
Lemma scan_no_match p fuel s :
  (∀ before s', s = before +:+ s' → Re.exec p s' Re.no_marks = None) →
  Re.scan fuel p s = [].
Proof.
  revert s. induction fuel as [|fuel IH]; intros s Hs; [done|]. cbn.
  rewrite (Hs "" s eq_refl). destruct s as [|c s]; [done|].
  apply IH. intros before s' ->. by apply (Hs (String c before)).
Qed.

Lemma findall_no_match p s :
  (∀ before w after, s = before +:+ w +:+ after → ¬ lang p w) →
  Re.findall p s = [].
Proof.
  intros Hs. apply scan_no_match. intros before s' ->.
  destruct (Re.exec p s' Re.no_marks) as [[m rest]|] eqn:He; [|done].
  apply exec_sound in He as (w & -> & Hw). by destruct (Hs before w rest).
Qed.

Lemma accepts_literal c x : Re.accepts (Re.Literal c) x = true → x = c.
Proof. cbn. apply Ascii.eqb_eq. Qed.

Lemma accepts_quotes x : Re.accepts (Re.In quotes) x = true → x ∈ quotes.
Proof.
  cbn. rewrite !orb_true_iff, !Ascii.eqb_eq. unfold quotes.
  intros [->|[->|?]]; [| |done]; set_solver.
Qed.

Lemma lang_markdown_pattern w : lang markdown_pattern w → markdown_image w.
Proof.
  cbn.
  intros (c1 & w1 & -> & ->%accepts_literal & c2 & w2 & -> & ->%accepts_literal &
          alt & w3 & -> & _ &
          c3 & w4 & -> & ->%accepts_literal & c4 & w5 & -> & ->%accepts_literal &
          url & w6 & -> & _ & c5 & w7 & -> & ->%accepts_literal & ->).
  by exists alt, url.
Qed.

Lemma lang_html_pattern w : lang html_pattern w → html_image w.
Proof.
  cbn -[Re.accepts].
  intros (c1 & w1 & -> & ->%accepts_literal & c2 & w2 & -> & ->%accepts_literal &
          c3 & w3 & -> & ->%accepts_literal & c4 & w4 & -> & ->%accepts_literal &
          a & attrs & w5 & -> & _ & _ &
          c5 & w6 & -> & ->%accepts_literal & c6 & w7 & -> & ->%accepts_literal &
          c7 & w8 & -> & ->%accepts_literal & c8 & w9 & -> & ->%accepts_literal &
          q & w10 & -> & Hq%accepts_quotes &
          u & url & w11 & -> & _ & _ &
          q' & w12 & -> & Hq'%accepts_quotes & ->).
  exists (String a attrs), q, (String u url), q'. split; [done|]. split; [done|].
  reflexivity.
Qed.

(** Neither pattern matches the empty string: a match always moves the
    scan forward. *)
Lemma markdown_match_advances s m m' rest :
  Re.exec markdown_pattern s m = Some (m', rest) →
  (String.length rest < String.length s)%nat.
Proof.
  intros (w & -> & (alt & url & ->)%lang_markdown_pattern)%exec_sound.
  norm_append. repeat (rewrite ?append_length; cbn [String.length]). lia.
Qed.

Lemma html_match_advances s m m' rest :
  Re.exec html_pattern s m = Some (m', rest) →
  (String.length rest < String.length s)%nat.
Proof.
  intros (w & -> & (attrs & q & url & q' & _ & _ & ->)%lang_html_pattern)%exec_sound.
  norm_append. repeat (rewrite ?append_length; cbn [String.length]). lia.
Qed.

Lemma list_set_nil {order : SetOrder} : list_set [] = [].
Proof.
  destruct (list_set []) as [|x l] eqn:E; [done|].
  assert (x ∈ @nil string) as ?%elem_of_nil; [|done].
  apply list_set_elem. rewrite E. left.
Qed.

(** A character of a substring is a character of the text. *)
Lemma has_char_app c before after :
  has_char c (before +:+ String c after) = true.
Proof.
  induction before as [|x before IH].
  - rewrite append_empty_l. cbn [has_char]. by rewrite Ascii.eqb_refl.
  - rewrite append_cons. cbn [has_char]. by rewrite IH, orb_true_r.
Qed.

Lemma contains_markdown_image_char text :
  contains markdown_image text → has_char "!" text = true.
Proof.
  intros (before & s & after & -> & alt & url & ->). apply has_char_app.
Qed.

Lemma contains_html_image_char text :
  contains html_image text → has_char "<" text = true.
Proof.
  intros (before & s & after & -> & attrs & q & url & q' & _ & _ & ->).
  apply has_char_app.
Qed.

End Matcher.

(** C8. A description that holds no image-like substring, neither the
    Markdown image syntax nor an HTML img tag with a src attribute, yields
    the empty list. *)
Theorem extract_images_none {order : SetOrder} (description : string) :
  ¬ contains markdown_image description →
  ¬ contains html_image description →
  extract_images_from_description description = [].
Proof.
  intros Hm Hh. unfold extract_images_from_description.
  rewrite !findall_no_match; [apply list_set_nil| |].
  - intros before w after -> Hw%lang_html_pattern. apply Hh. by exists before, w, after.
  - intros before w after -> Hw%lang_markdown_pattern. apply Hm. by exists before, w, after.
Qed.

Lemma extract_images_none_witness :
  @extract_images_from_description gset_order "no images here" = [].
Proof.
  apply (@extract_images_none gset_order "no images here").
  - intros H%contains_markdown_image_char. vm_compute in H. discriminate H.
  - intros H%contains_html_image_char. vm_compute in H. discriminate H.
Defined.

(** ** The analyzer: which images are fetched and attached *)

Section Analyzer.
Context (rt : runtime) {order : SetOrder}.

Lemma fetched_app (t t' : trace) : fetched (t ++ t') = fetched t ++ fetched t'.
Proof.
  induction t as [|e t IH]; [done|]. destruct e; cbn; by rewrite IH.
Qed.

Lemma attached_app (t t' : trace) : attached (t ++ t') = attached t ++ attached t'.
Proof.
  induction t as [|e t IH]; [done|]. destruct e; cbn; by rewrite IH.
Qed.

(** One download: it returns, requests its URL once, and calls no model. *)
Lemma download_image_trace image_url t :
  ∃ v new,
    download_image rt image_url t = (Returned v, t ++ new) ∧
    fetched new = [image_url] ∧ attached new = [].
Proof.
  rewrite download_image_run.
  destruct (requests_get rt t image_url) as [r|e];
    [destruct (status_code r =? 200)|];
    rewrite <- ?(assoc_L (++)); eauto.
Qed.

(** The loop requests each URL of its list, in order, and adds at most one
    part per URL. *)
Lemma download_all_trace urls image_parts t :
  ∃ parts new,
    download_all rt urls image_parts t = (Returned parts, t ++ new) ∧
    fetched new = urls ∧ attached new = [] ∧
    (length parts ≤ length image_parts + length urls)%nat.
Proof.
  revert image_parts t. induction urls as [|image_url urls IH]; intros image_parts t.
  - exists image_parts, []. cbn. rewrite app_nil_r. repeat split; lia.
  - cbn [download_all]. unfold bind.
    destruct (download_image_trace image_url t) as (v & new & -> & Hf & Ha).
    destruct (usable v).
    + destruct (IH (image_parts ++
                    [{| mime_type := infer_mime_type image_url;
                        data := default [] v |}]) (t ++ new))
        as (parts & new' & -> & Hf' & Ha' & Hl).
      exists parts, (new ++ new'). rewrite (assoc_L (++)), fetched_app, attached_app.
      rewrite Hf, Hf', Ha, Ha'. repeat split.
      rewrite length_app in Hl. cbn in *. lia.
    + destruct (IH image_parts (t ++ new)) as (parts & new' & -> & Hf' & Ha' & Hl).
      exists parts, (new ++ new'). rewrite (assoc_L (++)), fetched_app, attached_app.
      rewrite Hf, Hf', Ha, Ha'. repeat split. cbn. lia.
Qed.

Lemma generate_trace prompt parts t :
  ∃ o, generate rt prompt parts t = (o, t ++ [GenerateContent prompt parts]).
Proof.
  unfold generate. destruct (generate_content rt t prompt parts); eauto.
Qed.

(** The handler of a method adds one line and no request. *)
Lemma handled_trace {A} (body : M A) (message : exn → string) t new :
  (body t).2 = t ++ new →
  ∃ new',
    (try_except body (λ e, print (message e) ;;; sys_exit 1) t).2 = t ++ new' ∧
    fetched new' = fetched new ∧ attached new' = attached new.
Proof.
  unfold try_except, bind, print, emit, sys_exit.
  destruct (body t) as [[a|e|c] t']; cbn; intros ->; eauto.
  exists (new ++ [Stdout (message e)]).
  rewrite (assoc_L (++)), fetched_app, attached_app. cbn.
  by rewrite !app_nil_r.
Qed.

Lemma analyze_with_gemini_trace details t :
  ∃ new,
    (analyze_with_gemini rt details t).2 = t ++ new ∧
    fetched new = take 3 (images_of details) ∧
    Forall (λ parts, (length parts ≤ 3)%nat) (attached new).
Proof.
  unfold analyze_with_gemini.
  match goal with
  | |- ∃ new, (try_except ?b ?h t).2 = _ ∧ _ =>
      cut (∃ new, (b t).2 = t ++ new ∧
                  fetched new = take 3 (images_of details) ∧
                  Forall (λ parts, (length parts ≤ 3)%nat) (attached new))
  end.
  { intros (new & Hb & Hf & Ha).
    destruct (handled_trace _
                (λ e, "ERROR: Failed to analyze PR with Gemini: " +:+ str_exn rt e)
                t new Hb) as (new' & Hn & Hf' & Ha').
    exists new'. split; [exact Hn|]. by rewrite Hf', Ha'. }
  unfold images_of, bind, expect_str.
  destruct (description details) as [| | | |text| |];
    try (exists []; cbn; rewrite app_nil_r; by repeat split).
  cbn [ret raise].
  destruct (extract_images_from_description text) as [|u us] eqn:Hex.
  - destruct (generate_trace (build_prompt rt details) [] t) as (o & ->).
    exists [GenerateContent (build_prompt rt details) []].
    split; [by destruct o|]. split; [done|]. cbn. constructor; [cbn; lia|constructor].
  - unfold print, emit. cbn [fst snd].
    set (t1 := t ++ [Stdout _]).
    destruct (download_all_trace (take 3 (u :: us)) [] t1)
      as (parts & new & -> & Hf & Ha & Hl).
    assert (length parts ≤ 3)%nat as Hparts.
    { etrans; [exact Hl|]. cbn [length]. rewrite length_take. lia. }
    destruct parts as [|part parts].
    + destruct (generate_trace (build_prompt rt details) [] (t1 ++ new)) as (o & ->).
      eexists (_ :: new ++ [GenerateContent (build_prompt rt details) []]).
      split; [|split].
      * destruct o; cbn; unfold t1; by rewrite <- !(assoc_L (++)).
      * cbn [fetched]. rewrite fetched_app, Hf. cbn [fetched]. by rewrite app_nil_r.
      * cbn [attached]. rewrite attached_app, Ha. cbn. constructor; [cbn; lia|constructor].
    + destruct (generate_trace (build_prompt rt details) (part :: parts) (t1 ++ new))
        as (o & ->).
      eexists (_ :: new ++ [GenerateContent (build_prompt rt details) (part :: parts)]).
      split; [|split].
      * destruct o; cbn; unfold t1; by rewrite <- !(assoc_L (++)).
      * cbn [fetched]. rewrite fetched_app, Hf. cbn [fetched]. by rewrite app_nil_r.
      * cbn [attached]. rewrite attached_app, Ha. cbn. constructor; [exact Hparts|constructor].
Qed.

End Analyzer.

(** C6. Whatever the description holds, the analyzer requests exactly the
    first three URLs of the extracted list (all of them when there are fewer),
    so never more than three, and no call to the model carries more than
    three image payloads. *)
Theorem analyze_with_gemini_image_cap
    (rt : runtime) {order : SetOrder} (details : pr_details) (t : trace) :
  ∃ new,
    (analyze_with_gemini rt details t).2 = t ++ new ∧
    fetched new = take 3 (images_of details) ∧
    (length (fetched new) ≤ 3)%nat ∧
    Forall (λ parts, (length parts ≤ 3)%nat) (attached new).
Proof.
  destruct (analyze_with_gemini_trace rt details t) as (new & Hn & Hf & Ha).
  exists new. repeat split; [done..| |done].
  rewrite Hf, length_take. lia.
Qed.

(** Five images in the description: three requests, three payloads. *)
Example analyze_with_gemini_five_images :
  let details :=
    {| title := PStr "Fix bug";
       description :=
         PStr "![a](http://x/1.png) ![b](http://x/2.GIF) ![c](http://x/3) ![d](http://x/4.webp) <img src='http://x/5.png'>";
       number := PInt 42; url := PNone; repo := PStr "acme/repo" |} in
  let rt := Samples.scripted (Responded (Samples.image_reply 200))
              (Failed JSONDecodeError) (Answered "  Looks fine.  ") in
  let run := @analyze_with_gemini rt first_seen_order details [] in
  run.1 = Returned "Looks fine." ∧
  fetched run.2 = ["http://x/1.png"; "http://x/2.GIF"; "http://x/3"] ∧
  attached run.2 =
    [[ {| mime_type := "image/png"; data := Samples.png_bytes |};
       {| mime_type := "image/gif"; data := Samples.png_bytes |};
       {| mime_type := "image/jpeg"; data := Samples.png_bytes |} ]].
Proof. vm_compute. done. Qed.

(** A null body reaches the analyzer as [None]; [re.findall] raises on it
    and the run ends with exit status 1 before any request is made. *)
Example analyze_with_gemini_null_body :
  @analyze_with_gemini Samples.offline first_seen_order
    {| title := PStr "t"; description := PNone; number := PInt 1;
       url := PNone; repo := PStr "acme/repo" |} [] =
  (Exited 1,
   [Stdout "ERROR: Failed to analyze PR with Gemini: expected string or bytes-like object"]).
Proof. reflexivity. Qed.

(** ** The matcher on descriptions built from parts *)

Section Rendered.

Lemma append_length_sub (a b : string) :
  (String.length (a +:+ b) - String.length b)%nat = String.length a.
Proof. rewrite append_length. lia. Qed.

Lemma substring_prefix (a b : string) :
  String.substring 0 (String.length a) (a +:+ b) = a.
Proof.
  induction a as [|c a IH]; [by destruct b|]. rewrite append_cons. cbn. by rewrite IH.
Qed.

Lemma group1_marks (g tail : string) :
  Re.group1 {| Re.mark_open := g +:+ tail; Re.mark_close := tail |} = g.
Proof. unfold Re.group1. cbn. by rewrite append_length_sub, substring_prefix. Qed.

Lemma all_in_app cs (a b : string) :
  all_in cs (a +:+ b) = (all_in cs a && all_in cs b)%bool.
Proof.
  induction a as [|c a IH]; [done|]. rewrite append_cons. cbn.
  by rewrite IH, andb_assoc.
Qed.

Lemma all_in_weaken cs cs' (s : string) :
  (∀ c, Re.accepts cs c = true → Re.accepts cs' c = true) →
  all_in cs s = true → all_in cs' s = true.
Proof.
  intros Hc. induction s as [|c s IH]; [done|]. cbn.
  intros [Ha Hs]%andb_true_iff. by rewrite (Hc c Ha), IH.
Qed.

Lemma free_of_suffix cs (p w : string) :
  free_of cs (p +:+ w) = true → free_of cs w = true.
Proof. unfold free_of. rewrite all_in_app. by intros [_ ?]%andb_true_iff. Qed.

Lemma free_of_head cs c (w : string) x :
  free_of cs (String c w) = true → Re.inb x cs = true → Ascii.eqb c x = false.
Proof.
  unfold free_of. cbn. intros [Hc _]%andb_true_iff Hx.
  destruct (Ascii.eqb_spec c x) as [->|]; [|done].
  by rewrite Hx in Hc.
Qed.

(** A lazy star stops at the first place where the rest of the pattern
    matches. *)
Lemma min_star_first {R} cs (k : string → Re.marks → option R) u s m r :
  all_in cs u = true →
  (∀ p c w, u = p +:+ String c w → k (String c w +:+ s) m = None) →
  k s m = Some r →
  Re.min_star cs k (u +:+ s) m = Some r.
Proof.
  intros Hu Hfail Hk. induction u as [|c u IH].
  - rewrite append_empty_l. destruct s; cbn; by rewrite Hk.
  - pose proof (Hfail "" c u eq_refl) as Hn. rewrite !append_cons in *.
    cbn in Hu. apply andb_true_iff in Hu as [Hc Hu].
    cbn. rewrite Hn, Hc.
    apply IH; [done|]. intros p c' w ->. by apply (Hfail (String c p) c' w).
Qed.

(** A greedy star ends at the last place where the rest of the pattern
    matches. *)
Lemma max_star_None {R} cs (k : string → Re.marks → option R) s m :
  Re.max_star cs k s m = None → k s m = None.
Proof.
  destruct s as [|c s]; cbn; [done|].
  destruct (Re.accepts cs c); [|done]. by destruct (Re.max_star cs k s m).
Qed.

Lemma max_star_skip {R} cs (k : string → Re.marks → option R) u s m r :
  all_in cs u = true →
  Re.max_star cs k s m = Some r →
  Re.max_star cs k (u +:+ s) m = Some r.
Proof.
  intros Hu Hs. induction u as [|c u IH]; [done|].
  cbn in Hu. apply andb_true_iff in Hu as [Hc Hu].
  rewrite append_cons. cbn. by rewrite Hc, (IH Hu).
Qed.

Lemma max_star_last {R} cs (k : string → Re.marks → option R) u s m :
  all_in cs u = true →
  (∀ p c w, u = String c p +:+ w → k (w +:+ s) m = None) →
  Re.max_star cs k s m = None →
  Re.max_star cs k (u +:+ s) m = k (u +:+ s) m.
Proof.
  intros Hu Hfail Hs. induction u as [|c u IH].
  - rewrite append_empty_l, Hs. symmetry. by apply (max_star_None cs).
  - cbn in Hu. apply andb_true_iff in Hu as [Hc Hu].
    rewrite append_cons. cbn. rewrite Hc, IH; [| done |].
    + by rewrite (Hfail "" c u eq_refl).
    + intros p c' w ->. by apply (Hfail (String c' p) c w).
Qed.

End Rendered.

Section Rendered_exec.

Lemma free_of_any cs (s : string) :
  Re.inb "010" cs = true → free_of cs s = true → all_in Re.Any s = true.
Proof.
  intros Hnl. apply all_in_weaken. intros c. cbn.
  destruct (Ascii.eqb_spec c "010") as [->|]; [|done]. by rewrite Hnl.
Qed.

Lemma exec_markdown_image (alt url rest : string) m :
  free_of ["!"; "<"; "]"; "010"]%char alt = true →
  free_of ["!"; "<"; ")"; "010"]%char url = true →
  Re.exec markdown_pattern ("![" +:+ alt +:+ "](" +:+ url +:+ ")" +:+ rest) m =
    Some ({| Re.mark_open := url +:+ ")" +:+ rest;
             Re.mark_close := ")" +:+ rest |}, rest).
Proof.
  intros Halt Hurl. unfold markdown_pattern.
  rewrite !append_cons, append_empty_l. cbn [Re.exec Re.lit app Re.accepts Ascii.eqb Bool.eqb].
  apply min_star_first.
  - eapply free_of_any; [|exact Halt]. reflexivity.
  - intros p c w ->. apply free_of_suffix in Halt.
    rewrite append_cons. cbn [Re.exec Re.accepts].
    by rewrite (free_of_head _ c w "]"%char Halt eq_refl).
  - rewrite ?append_cons, ?append_empty_l.
    cbn [Re.exec Re.lit app Re.accepts Ascii.eqb Bool.eqb Re.mark_close Re.mark_open].
    apply min_star_first.
    + eapply free_of_any; [|exact Hurl]. reflexivity.
    + intros p c w ->. apply free_of_suffix in Hurl.
      rewrite append_cons. cbn [Re.exec Re.accepts].
      by rewrite (free_of_head _ c w ")"%char Hurl eq_refl).
    + rewrite ?append_cons, ?append_empty_l. reflexivity.
Qed.

(** The same at the head of any text, with only what the match itself
    needs: no []] and no newline in the alt text, no [)] and no newline in
    the URL. *)
Lemma exec_markdown_head (alt url rest : string) m :
  free_of ["]"; "010"]%char alt = true →
  free_of [")"; "010"]%char url = true →
  Re.exec markdown_pattern ("![" +:+ alt +:+ "](" +:+ url +:+ ")" +:+ rest) m =
    Some ({| Re.mark_open := url +:+ ")" +:+ rest;
             Re.mark_close := ")" +:+ rest |}, rest).
Proof.
  intros Halt Hurl. unfold markdown_pattern.
  rewrite !append_cons, append_empty_l. cbn [Re.exec Re.lit app Re.accepts Ascii.eqb Bool.eqb].
  apply min_star_first.
  - eapply free_of_any; [|exact Halt]. reflexivity.
  - intros p c w ->. apply free_of_suffix in Halt.
    rewrite append_cons. cbn [Re.exec Re.accepts].
    by rewrite (free_of_head _ c w "]"%char Halt eq_refl).
  - rewrite ?append_cons, ?append_empty_l.
    cbn [Re.exec Re.lit app Re.accepts Ascii.eqb Bool.eqb Re.mark_close Re.mark_open].
    apply min_star_first.
    + eapply free_of_any; [|exact Hurl]. reflexivity.
    + intros p c w ->. apply free_of_suffix in Hurl.
      rewrite append_cons. cbn [Re.exec Re.accepts].
      by rewrite (free_of_head _ c w ")"%char Hurl eq_refl).
    + rewrite ?append_cons, ?append_empty_l. reflexivity.
Qed.

End Rendered_exec.

Section Rendered_html.

Lemma inb_quotes q : Re.inb q quotes = true → q = "034"%char ∨ q = "'"%char.
Proof.
  cbn. rewrite !orb_true_iff, !Ascii.eqb_eq. intros [?|[?|?]]; auto. done.
Qed.

Lemma endswith_suffix (p w x : string) :
  Str.endswith (p +:+ w) x = false → Str.endswith w x = false.
Proof.
  intros Hp. destruct (Str.endswith w x) eqn:Hw; [|done].
  apply endswith_spec in Hw as [before ->].
  assert (Str.endswith (p +:+ before +:+ x) x = true) as E; [|congruence].
  apply endswith_spec. exists (p +:+ before). by rewrite append_assoc.
Qed.

Lemma append_eq_snoc (p w u : string) q :
  p +:+ w = u +:+ String q "" →
  w = "" ∨ ∃ w0, w = w0 +:+ String q "" ∧ u = p +:+ w0.
Proof.
  revert u. induction p as [|c p IH]; intros u.
  - rewrite append_empty_l. intros ->. right. by exists u.
  - destruct u as [|c' u]; rewrite !append_cons.
    + rewrite append_empty_l. intros [= -> [_ ->]%append_eq_empty]. by left.
    + intros [= -> [->|(w0 & -> & ->)]%IH]; [by left|]. right. by exists w0.
Qed.

(** Inside a URL that holds no quote and does not end with [src=], the
    tail of the pattern matches nowhere. *)
Lemma src_pattern_fails_in_url (w : string) q tail m :
  Re.inb q quotes = true →
  free_of quotes w = true →
  Str.endswith w "src=" = false →
  Re.exec src_pattern (w +:+ String q tail) m = None.
Proof.
  intros Hq Hw He. unfold src_pattern. cbn [Re.lit app].
  destruct w as [|c1 w]; rewrite ?append_cons, ?append_empty_l; cbn [Re.exec Re.accepts].
  { by destruct (inb_quotes q Hq) as [-> | ->]. }
  destruct (Ascii.eqb_spec c1 "s") as [->|]; [|done].
  destruct w as [|c2 w]; rewrite ?append_cons, ?append_empty_l; cbn [Re.exec Re.accepts].
  { by destruct (inb_quotes q Hq) as [-> | ->]. }
  destruct (Ascii.eqb_spec c2 "r") as [->|]; [|done].
  destruct w as [|c3 w]; rewrite ?append_cons, ?append_empty_l; cbn [Re.exec Re.accepts].
  { by destruct (inb_quotes q Hq) as [-> | ->]. }
  destruct (Ascii.eqb_spec c3 "c") as [->|]; [|done].
  destruct w as [|c4 w]; rewrite ?append_cons, ?append_empty_l; cbn [Re.exec Re.accepts].
  { by destruct (inb_quotes q Hq) as [-> | ->]. }
  destruct (Ascii.eqb_spec c4 "=") as [->|]; [|done].
  destruct w as [|c5 w]; [done|]. rewrite append_cons. cbn [Re.exec Re.accepts].
  apply (free_of_suffix _ "src=") in Hw. unfold free_of in Hw. cbn in Hw.
  apply andb_true_iff in Hw as [Hc _].
  change (Re.inb c5 quotes) with ((c5 =? "034")%char || ((c5 =? "'")%char || false))%bool.
  by apply negb_true_iff in Hc as ->.
Qed.

Lemma src_pattern_matches (q : ascii) (url rest : string) m :
  Re.inb q quotes = true →
  url ≠ "" →
  free_of quotes url = true →
  Re.exec src_pattern ("src=" +:+ String q (url +:+ String q rest)) m =
    Some ({| Re.mark_open := url +:+ String q rest;
             Re.mark_close := String q rest |}, rest).
Proof.
  intros Hq Hne Hu. unfold src_pattern.
  rewrite ?append_cons, ?append_empty_l.
  cbn [Re.lit app Re.exec Re.accepts Ascii.eqb Bool.eqb Re.mark_open Re.mark_close].
  rewrite Hq. destruct url as [|u url]; [done|].
  rewrite append_cons. unfold free_of in Hu. cbn [all_in Re.accepts] in Hu.
  apply andb_true_iff in Hu as [Hc Hu]. rewrite Hc.
  erewrite max_star_skip; [reflexivity|exact Hu|].
  cbn [Re.max_star Re.accepts Re.mark_open]. by rewrite Hq.
Qed.

End Rendered_html.

Section Rendered_html_exec.

Lemma html_pattern_split :
  html_pattern = Re.lit "<img" ++ [Re.MaxPlus (Re.NotIn [">"%char])] ++ src_pattern.
Proof. reflexivity. Qed.

Lemma free_of_weaken cs cs' (s : string) :
  (∀ c, Re.inb c cs' = true → Re.inb c cs = true) →
  free_of cs s = true → free_of cs' s = true.
Proof.
  intros Hc. apply all_in_weaken. intros c. cbn.
  destruct (Re.inb c cs') eqn:E; [|done]. by rewrite (Hc c E).
Qed.

Lemma inb_sub_quotes c :
  Re.inb c quotes = true → Re.inb c ["!"; "<"; ">"; "034"; "'"]%char = true.
Proof. cbn. rewrite !orb_true_iff. tauto. Qed.

Lemma inb_sub_gt c :
  Re.inb c [">"]%char = true → Re.inb c ["!"; "<"; ">"; "034"; "'"]%char = true.
Proof. cbn. rewrite !orb_true_iff. tauto. Qed.

Lemma inb_sub_gt_attrs c :
  Re.inb c [">"]%char = true → Re.inb c ["!"; "<"; ">"]%char = true.
Proof. cbn. rewrite !orb_true_iff. tauto. Qed.

Lemma src_pattern_fails_at_gt rest m :
  Re.exec src_pattern (String ">" rest) m = None.
Proof. reflexivity. Qed.

Lemma exec_html_image (attrs : string) q (url rest : string) m :
  attrs ≠ "" →
  free_of ["!"; "<"; ">"]%char attrs = true →
  Re.inb q quotes = true →
  url ≠ "" →
  free_of ["!"; "<"; ">"; "034"; "'"]%char url = true →
  Str.endswith url "src=" = false →
  Re.exec html_pattern
    ("<img" +:+ attrs +:+ "src=" +:+ String q (url +:+ String q (String ">" rest))) m =
  Some ({| Re.mark_open := url +:+ String q (String ">" rest);
           Re.mark_close := String q (String ">" rest) |}, String ">" rest).
Proof.
  intros Hattrs Ha Hq Hurl Hu He.
  pose proof (free_of_weaken _ _ _ inb_sub_quotes Hu) as Huq.
  pose proof (free_of_weaken _ _ _ inb_sub_gt Hu) as Hug.
  pose proof (free_of_weaken _ _ _ inb_sub_gt_attrs Ha) as Hag.
  destruct attrs as [|a attrs]; [done|].
  rewrite html_pattern_split. norm_append.
  unfold free_of in Hag. cbn [all_in Re.accepts] in Hag.
  apply andb_true_iff in Hag as [Hc Hag].
  cbn [Re.lit app Re.exec Re.accepts Ascii.eqb Bool.eqb]. rewrite Hc.
  apply max_star_skip; [exact Hag|].
  replace (String "s" (String "r" (String "c" (String "="
             (String q (url +:+ String q (String ">" rest)))))))
    with (("src=" +:+ String q (url +:+ String q "")) +:+ String ">" rest)
    by (by norm_append).
  rewrite max_star_last.
  - norm_append. by apply (src_pattern_matches q url (String ">" rest)).
  - norm_append. cbn [all_in]. rewrite all_in_app.
    unfold free_of in Hug. rewrite Hug. cbn.
    by destruct (inb_quotes q Hq) as [-> | ->].
  - intros p c w. norm_append. intros [= <- E].
    destruct p as [|c2 p]; [by rewrite append_empty_l in E; subst w|].
    rewrite append_cons in E. injection E as <- E.
    destruct p as [|c3 p]; [by rewrite append_empty_l in E; subst w|].
    rewrite append_cons in E. injection E as <- E.
    destruct p as [|c4 p]; [by rewrite append_empty_l in E; subst w|].
    rewrite append_cons in E. injection E as <- E.
    destruct p as [|c5 p].
    { rewrite append_empty_l in E. subst w. rewrite append_cons.
      by destruct (inb_quotes q Hq) as [-> | ->]. }
    rewrite append_cons in E. injection E as <- E. symmetry in E.
    apply append_eq_snoc in E as [->|(w0 & -> & ->)]; [done|].
    norm_append. apply src_pattern_fails_in_url; [done| |].
    + by apply free_of_suffix in Huq.
    + by apply endswith_suffix in He.
  - reflexivity.
Qed.

End Rendered_html_exec.

Section Rendered_scan.

Lemma exec_rest_length p s m m' rest :
  Re.exec p s m = Some (m', rest) → (String.length rest ≤ String.length s)%nat.
Proof. intros (w & -> & _)%exec_sound. rewrite append_length. lia. Qed.

(** Any fuel above the length of the text gives the same scan. *)
Lemma scan_fuel p fuel fuel' s :
  (String.length s < fuel)%nat → (String.length s < fuel')%nat →
  Re.scan fuel p s = Re.scan fuel' p s.
Proof.
  revert fuel' s. induction fuel as [|fuel IH]; intros [|fuel'] s Hf Hf'; [lia..|].
  cbn [Re.scan].
  destruct (Re.exec p s Re.no_marks) as [[m rest]|] eqn:He.
  - apply exec_rest_length in He. f_equal.
    destruct (Nat.ltb_spec (String.length rest) (String.length s)).
    + apply IH; lia.
    + destruct s as [|c s]; [done|]. cbn in Hf, Hf'. apply IH; lia.
  - destruct s as [|c s]; [done|]. cbn in Hf, Hf'. apply IH; lia.
Qed.

Lemma findall_step_none p c s :
  Re.exec p (String c s) Re.no_marks = None →
  Re.findall p (String c s) = Re.findall p s.
Proof. intros He. unfold Re.findall. cbn [String.length Re.scan]. by rewrite He. Qed.

Lemma findall_step_match p s m rest :
  Re.exec p s Re.no_marks = Some (m, rest) →
  (String.length rest < String.length s)%nat →
  Re.findall p s = Re.group1 m :: Re.findall p rest.
Proof.
  intros He Hl. unfold Re.findall.
  rewrite (scan_fuel p (S (String.length rest)) (String.length s) rest) by lia.
  cbn [Re.scan]. rewrite He.
  apply Nat.ltb_lt in Hl as Hb. by rewrite Hb.
Qed.

(** Text without the first character of the pattern is passed over. *)
Lemma findall_skip p c0 (u s : string) :
  (∀ c w, Ascii.eqb c c0 = false → Re.exec p (String c w) Re.no_marks = None) →
  free_of [c0] u = true →
  Re.findall p (u +:+ s) = Re.findall p s.
Proof.
  intros Hp. induction u as [|c u IH]; [done|]. intros Hu.
  unfold free_of in Hu. cbn in Hu. rewrite orb_false_r in Hu.
  apply andb_true_iff in Hu as [Hc Hu]. apply negb_true_iff in Hc.
  rewrite append_cons, findall_step_none by auto. by apply IH.
Qed.

Lemma markdown_pattern_first c w :
  Ascii.eqb c "!" = false → Re.exec markdown_pattern (String c w) Re.no_marks = None.
Proof. intros Hc. cbn. by rewrite Hc. Qed.

Lemma html_pattern_first c w :
  Ascii.eqb c "<" = false → Re.exec html_pattern (String c w) Re.no_marks = None.
Proof. intros Hc. cbn. by rewrite Hc. Qed.

Lemma inb_sub_head x (cs : list ascii) c :
  Re.inb x cs = true → Re.inb c [x] = true → Re.inb c cs = true.
Proof.
  cbn. rewrite orb_false_r. by intros Hx ->%Ascii.eqb_eq.
Qed.

Lemma free_of_one x cs (s : string) :
  Re.inb x cs = true → free_of cs s = true → free_of [x] s = true.
Proof. intros Hx. apply free_of_weaken. intros c. by apply inb_sub_head. Qed.

Lemma free_of_app cs (a b : string) :
  free_of cs a = true → free_of cs b = true → free_of cs (a +:+ b) = true.
Proof. unfold free_of. rewrite all_in_app. by intros -> ->. Qed.

Lemma well_formed_html attrs q url :
  well_formed (HtmlImage attrs q url) = true →
  attrs ≠ "" ∧ free_of ["!"; "<"; ">"]%char attrs = true ∧
  Re.inb q quotes = true ∧ url ≠ "" ∧
  free_of ["!"; "<"; ">"; "034"; "'"]%char url = true ∧
  Str.endswith url "src=" = false.
Proof.
  cbn [well_formed]. rewrite !andb_true_iff, !negb_true_iff, !String.eqb_neq. tauto.
Qed.

Lemma findall_markdown_item i rest :
  well_formed i = true →
  Re.findall markdown_pattern (render i +:+ rest) =
  markdown_urls [i] ++ Re.findall markdown_pattern rest.
Proof.
  destruct i as [s|alt url|attrs q url]; cbn [render markdown_urls]; intros Hwf.
  - apply (findall_skip _ "!"%char); [apply markdown_pattern_first|].
    by apply (free_of_one "!"%char) in Hwf.
  - apply andb_true_iff in Hwf as [Halt Hurl]. norm_append.
    pose proof (exec_markdown_image alt url rest Re.no_marks Halt Hurl) as He.
    revert He. norm_append. intros He.
    rewrite (findall_step_match _ _ _ _ He).
    + by rewrite group1_marks.
    + cbn. rewrite !append_length. cbn. rewrite !append_length. cbn. lia.
  - apply well_formed_html in Hwf as (_ & Ha & Hq & _ & Hu & _).
    apply (findall_skip _ "!"%char); [apply markdown_pattern_first|].
    apply (free_of_one "!"%char) in Ha, Hu; [|done..].
    repeat (apply free_of_app; [done|]).
    destruct (inb_quotes q Hq) as [-> | ->];
      (apply free_of_app; [exact Hu|reflexivity]).
Qed.

Lemma findall_html_item i rest :
  well_formed i = true →
  Re.findall html_pattern (render i +:+ rest) =
  html_urls [i] ++ Re.findall html_pattern rest.
Proof.
  destruct i as [s|alt url|attrs q url]; cbn [render html_urls]; intros Hwf.
  - apply (findall_skip _ "<"%char); [apply html_pattern_first|].
    by apply (free_of_one "<"%char) in Hwf.
  - apply andb_true_iff in Hwf as [Halt Hurl].
    apply (findall_skip _ "<"%char); [apply html_pattern_first|].
    apply (free_of_one "<"%char) in Halt, Hurl; [|done..].
    repeat (apply free_of_app; [done|]). done.
  - apply well_formed_html in Hwf as (Hne & Ha & Hq & Hune & Hu & He).
    pose proof (exec_html_image attrs q url rest Re.no_marks Hne Ha Hq Hune Hu He) as Hx.
    norm_append. revert Hx. norm_append. intros Hx.
    rewrite (findall_step_match _ _ _ _ Hx).
    + rewrite group1_marks, findall_step_none by reflexivity. reflexivity.
    + cbn. rewrite !append_length. cbn. rewrite !append_length. cbn. lia.
Qed.

Lemma findall_markdown_rendered items :
  Forall (λ i, well_formed i = true) items →
  Re.findall markdown_pattern (render_all items) = markdown_urls items.
Proof.
  induction 1 as [|i items Hi _ IH]; [done|]. cbn [render_all].
  rewrite findall_markdown_item, IH by done. by destruct i.
Qed.

Lemma findall_html_rendered items :
  Forall (λ i, well_formed i = true) items →
  Re.findall html_pattern (render_all items) = html_urls items.
Proof.
  induction 1 as [|i items Hi _ IH]; [done|]. cbn [render_all].
  rewrite findall_html_item, IH by done. by destruct i.
Qed.

End Rendered_scan.

(** ** The extractor on descriptions built from parts *)

Section Rendered_extract.
Context {order : SetOrder}.

Lemma extract_images_rendered_elem items u :
  Forall (λ i, well_formed i = true) items →
  u ∈ extract_images_from_description (render_all items) ↔
  u ∈ markdown_urls items ∨ u ∈ html_urls items.
Proof.
  intros Hwf.
  by rewrite extract_images_elem, findall_markdown_rendered, findall_html_rendered.
Qed.

(** [N] Markdown images and [M] HTML images, all with different URLs: the
    extractor returns [N + M] URLs. *)
Lemma extract_images_rendered_count items :
  Forall (λ i, well_formed i = true) items →
  NoDup (markdown_urls items ++ html_urls items) →
  length (extract_images_from_description (render_all items)) =
  (length (markdown_urls items) + length (html_urls items))%nat.
Proof.
  intros Hwf Hnd. rewrite <- length_app.
  apply Permutation_length, NoDup_Permutation; [apply extract_images_NoDup|done|].
  intros u. by rewrite extract_images_rendered_elem, elem_of_app.
Qed.

(** The same URL written as a Markdown image and as an HTML image comes
    back once. *)
Lemma extract_images_rendered_both items u :
  Forall (λ i, well_formed i = true) items →
  u ∈ markdown_urls items → u ∈ html_urls items →
  occurrences u (extract_images_from_description (render_all items)) = 1%nat.
Proof.
  intros Hwf Hm Hh. apply occurrences_NoDup; [apply extract_images_NoDup|].
  apply extract_images_rendered_elem; auto.
Qed.

(** Plain text in which no [!] and no [<] occurs holds no image. *)
Lemma extract_images_plain_text (s : string) :
  free_of ["!"; "<"]%char s = true → extract_images_from_description s = [].
Proof.
  intros Hs.
  assert (Forall (λ i, well_formed i = true) [Text s]) as Hwf by (by constructor).
  pose proof (findall_markdown_rendered _ Hwf) as Hm.
  pose proof (findall_html_rendered _ Hwf) as Hh.
  cbn [render_all render] in Hm, Hh. rewrite append_empty_r in Hm, Hh.
  unfold extract_images_from_description. rewrite Hm, Hh. apply list_set_nil.
Qed.

End Rendered_extract.

Example rendered_description :
  let items :=
    [Text "Before: "; MarkdownImage "old" "http://x/old.png"; Text (String "010" "After: ");
     HtmlImage " width='40' " "034" "http://x/new.png?v=2"; Text " done."] in
  Forall (λ i, well_formed i = true) items ∧
  markdown_urls items = ["http://x/old.png"] ∧
  html_urls items = ["http://x/new.png?v=2"] ∧
  Re.findall markdown_pattern (render_all items) = ["http://x/old.png"] ∧
  Re.findall html_pattern (render_all items) = ["http://x/new.png?v=2"].
Proof. cbn zeta. split; [by repeat constructor|]. by vm_compute. Qed.

(** ** The whole run *)

Section Run.
Context (rt : runtime) {order : SetOrder} (path : string) (self : analyzer).

Lemma outbound_app (t t' : trace) : outbound (t ++ t') = outbound t ++ outbound t'.
Proof.
  induction t as [|e t IH]; [done|]. destruct e; cbn; by rewrite IH.
Qed.

(** X16 (scenario B).  When the event holds no [pull_request], or a falsy
    one, the process exits with status 1 and nothing was sent: no GET, no
    POST, no call to the model. *)
Lemma run_unsupported_event (fields : gmap string pyval) t :
  json_load rt path = Loaded (PDict fields) →
  truthy (from_option id PNone (fields !! "pull_request")) = false →
  ∃ t', run rt path self t = (Exited 1, t ++ t') ∧ outbound t' = [].
Proof.
  intros Hload Hpr.
  unfold run, load_github_context, read_json, try_except, bind, print, emit, ret.
  rewrite Hload, extract_pr_details_falsy by done.
  eexists. split; [by rewrite <- !(assoc_L (++))|]. reflexivity.
Qed.

(** X17.  A missing or unparsable event file ends the run the same way:
    exit status 1, nothing sent. *)
Lemma run_without_event t :
  (∃ p, json_load rt path = Unreadable (FileNotFoundError p)) ∨
  json_load rt path = Unreadable JSONDecodeError →
  ∃ t', run rt path self t = (Exited 1, t ++ t') ∧ outbound t' = [].
Proof.
  unfold run, load_github_context, read_json, try_except, bind, print, emit,
    sys_exit, raise.
  intros [[p ->]| ->]; (eexists; split; [by rewrite <- !(assoc_L (++))|reflexivity]).
Qed.

End Run.

(** Scenario A: a PR without images is analyzed from its text alone, and the
    answer is posted to the comments of issue 42 of acme/repo. *)
Example run_scenario_A :
  let event :=
    PDict (<["pull_request" :=
               PDict (<["title" := PStr "Fix bug"]>
                      (<["body" := PStr "no images here"]>
                       (<["number" := PInt 42]> ∅)))]>
           (<["repository" := PDict (<["full_name" := PStr "acme/repo"]> ∅)]> ∅)) in
  let rt :=
    Samples.with_event (Loaded event)
      (Samples.scripted (Failed (RequestException "unused"))
         (Responded (Samples.reply 201 (Some (PDict (<["id" := PInt 7]> ∅)))))
         (Answered "Looks fine.")) in
  let details :=
    {| title := PStr "Fix bug"; description := PStr "no images here";
       number := PInt 42; url := PNone; repo := PStr "acme/repo" |} in
  let result := @run rt first_seen_order "/tmp/event.json" (init "tok" "key") [] in
  result.1 = Returned tt ∧
  outbound result.2 =
    [GenerateContent (build_prompt rt details) [];
     HttpPost "https://api.github.com/repos/acme/repo/issues/42/comments"
       (comment_data "Looks fine.") (headers (init "tok" "key"))].
Proof. vm_compute. done. Qed.

(** A refused comment makes the run exit with status 1. *)
Example run_comment_refused :
  let event :=
    PDict (<["pull_request" :=
               PDict (<["title" := PStr "Fix bug"]> (<["body" := PStr "text"]> ∅))]> ∅) in
  let rt :=
    Samples.with_event (Loaded event)
      (Samples.scripted (Failed (RequestException "unused"))
         (Responded (Samples.reply 403 None)) (Answered "Looks fine.")) in
  (@run rt first_seen_order "/tmp/event.json" (init "tok" "key") []).1 = Exited 1.
Proof. vm_compute. done. Qed.

(** A created comment whose body cannot be read ends the process with
    status 1 as well. *)
Example run_comment_unreadable :
  let event :=
    PDict (<["pull_request" :=
               PDict (<["title" := PStr "Fix bug"]> (<["body" := PStr "text"]> ∅))]> ∅) in
  let rt :=
    Samples.with_event (Loaded event)
      (Samples.scripted (Failed (RequestException "unused"))
         (Responded (Samples.reply 201 (Some (PList [])))) (Answered "Looks fine.")) in
  (@run rt first_seen_order "/tmp/event.json" (init "tok" "key") []).1 = Exited 1.
Proof. vm_compute. done. Qed.

(** Without its token the script stops before anything else. *)
Example main_without_token :
  @main Samples.offline first_seen_order
    (<["GEMINI_API_KEY" := "key"]> (<["GITHUB_EVENT_PATH" := "/tmp/event.json"]> ∅)) [] =
  (Exited 1, [Stdout "ERROR: GITHUB_TOKEN is not set"]).
Proof. reflexivity. Qed.

(** ** What the patterns capture *)

Section Captures.

(** A lazy star stops at the first place where the rest matches: the rest
    fails at every earlier place. *)
Lemma min_star_sound_first {R} cs (k : string → Re.marks → option R) s m r :
  Re.min_star cs k s m = Some r →
  ∃ u s', s = u +:+ s' ∧ all_in cs u = true ∧ k s' m = Some r ∧
          ∀ p c w, u = p +:+ String c w → k (String c w +:+ s') m = None.
Proof.
  induction s as [|c s IH]; cbn.
  - destruct (k "" m) eqn:Hk; [|done]. intros [= <-]. exists "", "".
    repeat split; [done|]. by intros [|??] ???.
  - destruct (k (String c s) m) eqn:Hk.
    + intros [= <-]. exists "", (String c s). repeat split; [done|].
      by intros [|??] ???.
    + destruct (Re.accepts cs c) eqn:Hc; [|done].
      intros (u & s' & -> & Hu & Hr & Hfirst)%IH.
      exists (String c u), s'. repeat split; [by cbn; rewrite Hc, Hu|done|].
      intros [|c' p] c'' w E.
      * rewrite append_empty_l in E. injection E as <- <-. by rewrite append_cons.
      * rewrite append_cons in E. injection E as <- ->. by apply (Hfirst p c'' w).
Qed.

Lemma has_char_first_fail (u : string) x :
  (∀ p c w, u = p +:+ String c w → Ascii.eqb c x = false) → has_char x u = false.
Proof.
  induction u as [|c u IH]; [done|]. intros Hu. cbn.
  rewrite (Hu "" c u eq_refl). cbn. apply IH. intros p c' w ->.
  by apply (Hu (String c p) c' w).
Qed.

Lemma all_in_any_newline (u : string) :
  all_in Re.Any u = true → has_char "010" u = false.
Proof.
  induction u as [|c u IH]; [done|]. cbn.
  intros [Hc Hu]%andb_true_iff. apply negb_true_iff in Hc. by rewrite Hc, IH.
Qed.

(** A match of the Markdown pattern: the text it consumed and its group. *)
Lemma exec_markdown_capture s m m' rest :
  Re.exec markdown_pattern s m = Some (m', rest) →
  ∃ alt url,
    s = "![" +:+ alt +:+ "](" +:+ url +:+ ")" +:+ rest ∧
    Re.group1 m' = url ∧
    has_char "010" alt = false ∧ has_char "010" url = false ∧
    has_char ")" url = false.
Proof.
  unfold markdown_pattern. cbn [Re.lit app Re.exec].
  destruct s as [|c1 s]; [done|]. cbn [Re.accepts].
  destruct (Ascii.eqb_spec c1 "!") as [->|]; [|done].
  destruct s as [|c2 s]; [done|].
  destruct (Ascii.eqb_spec c2 "[") as [->|]; [|done].
  intros (alt & s2 & -> & Halt & Hk & _)%min_star_sound_first.
  destruct s2 as [|c3 s2]; [done|].
  destruct (Ascii.eqb_spec c3 "]") as [->|]; [|done].
  destruct s2 as [|c4 s2]; [done|].
  destruct (Ascii.eqb_spec c4 "(") as [->|]; [|done].
  apply min_star_sound_first in Hk as (url & s4 & -> & Hurl & Hk & Hfirst).
  cbn [Re.mark_open Re.mark_close] in *.
  destruct s4 as [|c5 s4]; [done|].
  destruct (Ascii.eqb_spec c5 ")") as [->|]; [|done].
  injection Hk as <- <-.
  exists alt, url. split; [by norm_append|]. split; [apply group1_marks|].
  split; [by apply all_in_any_newline|]. split; [by apply all_in_any_newline|].
  apply has_char_first_fail. intros p c w Hu.
  specialize (Hfirst p c w Hu). rewrite append_cons in Hfirst.
  by destruct (Ascii.eqb c ")").
Qed.

(** A match of the HTML pattern: the text it consumed and its group. *)
Lemma exec_html_capture s m m' rest :
  Re.exec html_pattern s m = Some (m', rest) →
  ∃ attrs q url q',
    s = "<img" +:+ attrs +:+ "src=" +:+ String q (url +:+ String q' rest) ∧
    Re.group1 m' = url ∧
    attrs ≠ "" ∧ free_of [">"]%char attrs = true ∧
    q ∈ quotes ∧ q' ∈ quotes ∧
    url ≠ "" ∧ free_of quotes url = true.
Proof.
  unfold html_pattern. cbn [Re.lit app Re.exec].
  destruct s as [|c1 s]; [done|]. cbn [Re.accepts].
  destruct (Ascii.eqb_spec c1 "<") as [->|]; [|done].
  destruct s as [|c2 s]; [done|].
  destruct (Ascii.eqb_spec c2 "i") as [->|]; [|done].
  destruct s as [|c3 s]; [done|].
  destruct (Ascii.eqb_spec c3 "m") as [->|]; [|done].
  destruct s as [|c4 s]; [done|].
  destruct (Ascii.eqb_spec c4 "g") as [->|]; [|done].
  destruct s as [|a s]; [done|].
  destruct (negb (Re.inb a [">"%char])) eqn:Ha; [|done].
  intros (attrs & s2 & -> & Hattrs & Hk)%max_star_sound.
  destruct s2 as [|c5 s2]; [done|].
  destruct (Ascii.eqb_spec c5 "s") as [->|]; [|done].
  destruct s2 as [|c6 s2]; [done|].
  destruct (Ascii.eqb_spec c6 "r") as [->|]; [|done].
  destruct s2 as [|c7 s2]; [done|].
  destruct (Ascii.eqb_spec c7 "c") as [->|]; [|done].
  destruct s2 as [|c8 s2]; [done|].
  destruct (Ascii.eqb_spec c8 "=") as [->|]; [|done].
  destruct s2 as [|q s2]; [done|].
  destruct (Re.inb q quotes) eqn:Hq; [|done].
  destruct s2 as [|u s2]; [done|].
  destruct (negb (Re.inb u quotes)) eqn:Hu; [|done].
  apply max_star_sound in Hk as (url & s3 & -> & Hurl & Hk).
  cbn [Re.mark_open Re.mark_close] in Hk.
  destruct s3 as [|q' s3]; [done|].
  destruct (Re.inb q' quotes) eqn:Hq'; [|done].
  injection Hk as <- <-.
  exists (String a attrs), q, (String u url), q'.
  split; [by norm_append|]. split; [by rewrite <- append_cons, group1_marks|].
  split; [done|]. split; [by unfold free_of; cbn [all_in Re.accepts]; rewrite Ha|].
  split; [by apply (accepts_quotes q)|]. split; [by apply (accepts_quotes q')|].
  split; [done|]. by unfold free_of; cbn [all_in Re.accepts]; rewrite Hu.
Qed.

(** Every group the scan returns is the group of a match at some place of
    the text. *)
Lemma scan_elem p fuel s u :
  u ∈ Re.scan fuel p s →
  ∃ before s' m rest,
    s = before +:+ s' ∧ Re.exec p s' Re.no_marks = Some (m, rest) ∧
    Re.group1 m = u.
Proof.
  revert s. induction fuel as [|fuel IH]; intros s; cbn [Re.scan].
  { by intros ?%elem_of_nil. }
  assert (∀ c s0, s = String c s0 → u ∈ Re.scan fuel p s0 →
            ∃ before s' m rest, s = before +:+ s' ∧
              Re.exec p s' Re.no_marks = Some (m, rest) ∧ Re.group1 m = u) as Hstep.
  { intros c s0 -> (before & s' & m & rest & -> & He & Hg)%IH.
    by exists (String c before), s', m, rest. }
  destruct (Re.exec p s Re.no_marks) as [[m rest]|] eqn:He.
  - intros [->|Hu]%elem_of_cons; [by exists "", s, m, rest|].
    destruct (String.length rest <? String.length s)%nat.
    + apply IH in Hu as (before & s' & m1 & rest1 & -> & He1 & Hg).
      apply exec_sound in He as (w & -> & _).
      exists (w +:+ before), s', m1, rest1. by rewrite append_assoc.
    + destruct s as [|c s0]; [by apply elem_of_nil in Hu|]. by eapply Hstep.
  - destruct s as [|c s0]; [by intros ?%elem_of_nil|]. by eapply Hstep.
Qed.

End Captures.

Section Analyzer_exact.
Context (rt : runtime) {order : SetOrder}.

Lemma outbound_gets urls : outbound (gets urls) = gets urls.
Proof. unfold gets. induction urls as [|u urls IH]; [done|]. cbn. by rewrite IH. Qed.

(** One download: one GET with the timeout of ten, then at most a warning. *)
Lemma download_image_exact image_url t :
  ∃ v lines,
    download_image rt image_url t = (Returned v, t ++ HttpGet image_url 10 :: lines) ∧
    outbound lines = [].
Proof.
  rewrite download_image_run.
  destruct (requests_get rt t image_url) as [r|e];
    [destruct (status_code r =? 200)|];
    rewrite <- ?(assoc_L (++)); eauto.
Qed.

Lemma usable_data v : usable v = true → default [] v ≠ [].
Proof. by destruct v as [[|b bs]|]. Qed.

Lemma part_of_mono urls urls' p :
  (∀ u, u ∈ urls → u ∈ urls') → part_of urls p → part_of urls' p.
Proof. intros Hsub (Hd & u & Hu & Hm). split; [done|]. eauto. Qed.

(** The loop: its requests in order, and what each added part is. *)
Lemma download_all_exact urls image_parts t :
  ∃ parts new,
    download_all rt urls image_parts t = (Returned (image_parts ++ parts), t ++ new) ∧
    outbound new = gets urls ∧
    (length parts ≤ length urls)%nat ∧
    Forall (part_of urls) parts.
Proof.
  revert image_parts t. induction urls as [|image_url urls IH]; intros image_parts t.
  - exists [], []. cbn. rewrite !app_nil_r. repeat split; [lia|constructor].
  - cbn [download_all]. unfold bind.
    destruct (download_image_exact image_url t) as (v & lines & -> & Hl).
    destruct (usable v) eqn:Hv.
    + destruct (IH (image_parts ++
                    [{| mime_type := infer_mime_type image_url;
                        data := default [] v |}])
                   (t ++ HttpGet image_url 10 :: lines))
        as (parts & new & -> & Ho & Hn & Hp).
      eexists (_ :: parts), (HttpGet image_url 10 :: lines ++ new).
      split; [by rewrite <- !(assoc_L (++))|].
      split; [cbn; by rewrite outbound_app, Hl, Ho|].
      split; [cbn; lia|]. constructor.
      * split; [by apply usable_data|]. exists image_url. split; [left|done].
      * eapply Forall_impl; [exact Hp|]. intros p. apply part_of_mono.
        intros u. by right.
    + destruct (IH image_parts (t ++ HttpGet image_url 10 :: lines))
        as (parts & new & -> & Ho & Hn & Hp).
      exists parts, (HttpGet image_url 10 :: lines ++ new).
      split; [by rewrite <- !(assoc_L (++))|].
      split; [cbn; by rewrite outbound_app, Hl, Ho|].
      split; [cbn; lia|].
      eapply Forall_impl; [exact Hp|]. intros p. apply part_of_mono.
      intros u. by right.
Qed.

(** The analysis of a description that is text: the downloads, then one
    call to the model whose answer decides the outcome. *)
Lemma analyze_with_gemini_text details text t :
  description details = PStr text →
  ∃ pre parts,
    outbound pre = gets (take 3 (extract_images_from_description text)) ∧
    (length parts ≤ length (take 3 (extract_images_from_description text)))%nat ∧
    Forall (part_of (take 3 (extract_images_from_description text))) parts ∧
    analyze_with_gemini rt details t =
      match generate_content rt (t ++ pre) (build_prompt rt details) parts with
      | Answered a =>
          (Returned (Str.strip a),
           (t ++ pre) ++ [GenerateContent (build_prompt rt details) parts])
      | Refused e =>
          (Exited 1,
           ((t ++ pre) ++ [GenerateContent (build_prompt rt details) parts]) ++
           [Stdout ("ERROR: Failed to analyze PR with Gemini: " +:+ str_exn rt e)])
      end.
Proof.
  intros Hd. unfold analyze_with_gemini, try_except, bind, expect_str, generate.
  rewrite Hd. cbn [ret].
  destruct (extract_images_from_description text) as [|u us] eqn:Hex.
  - exists [], []. rewrite app_nil_r. split; [done|]. split; [done|].
    split; [constructor|].
    by destruct (generate_content rt t (build_prompt rt details) []).
  - unfold print, emit.
    set (t1 := t ++ [Stdout _]).
    destruct (download_all_exact (take 3 (u :: us)) [] t1)
      as (parts & new & -> & Ho & Hn & Hp).
    set (line := Stdout _) in t1.
    exists (line :: new), parts.
    split; [done|]. split; [done|]. split; [done|].
    replace (t ++ line :: new) with (t1 ++ new)
      by (unfold t1; by rewrite <- (assoc_L (++))).
    cbn [app]. destruct parts as [|part parts];
      by destruct (generate_content rt (t1 ++ new) (build_prompt rt details) _).
Qed.

Lemma analyze_with_gemini_not_text details t :
  (∀ text, description details ≠ PStr text) →
  analyze_with_gemini rt details t =
    (Exited 1,
     t ++ [Stdout ("ERROR: Failed to analyze PR with Gemini: " +:+
                   str_exn rt (TypeError "expected string or bytes-like object"))]).
Proof.
  intros Hd. unfold analyze_with_gemini, try_except, bind, expect_str.
  by destruct (description details) as [| | | |text| |]; [..|destruct (Hd text)| |].
Qed.

End Analyzer_exact.

Section Stages.
Context (rt : runtime) {order : SetOrder} (path : string) (self : analyzer).

Lemma truthy_dict_true (m : gmap string pyval) : truthy (PDict m) = true → m ≠ ∅.
Proof. intros Ht ->. by rewrite (proj2 (truthy_dict ∅) eq_refl) in Ht. Qed.

Lemma dict_or_not (v : pyval) : (∃ m, v = PDict m) ∨ (∀ m, v ≠ PDict m).
Proof. destruct v; eauto. Qed.

(** A truthy [pull_request] that is not an object has no [get]. *)
Lemma extract_pr_details_not_object (fields : gmap string pyval) pr t :
  fields !! "pull_request" = Some pr → truthy pr = true →
  (∀ m, pr ≠ PDict m) →
  extract_pr_details rt (PDict fields) t =
    (Exited 1,
     t ++ [Stdout ("ERROR: Failed to extract PR details: " +:+
                   str_exn rt (AttributeError (type_name pr) "get"))]).
Proof.
  intros Hpr Ht Hnd.
  unfold extract_pr_details, try_except, bind, when, ret.
  cbn [get]. unfold ret. rewrite Hpr. cbn [from_option id]. rewrite Ht. cbn [negb].
  destruct pr as [| | | | | |m]; try reflexivity. by destruct (Hnd m).
Qed.

(** A [repository] that is present and not an object has no [get]
    either. *)
Lemma extract_pr_details_bad_repository (fields pr : gmap string pyval) v t :
  fields !! "pull_request" = Some (PDict pr) → pr ≠ ∅ →
  fields !! "repository" = Some v → (∀ m, v ≠ PDict m) →
  extract_pr_details rt (PDict fields) t =
    (Exited 1,
     t ++ [Stdout ("ERROR: Failed to extract PR details: " +:+
                   str_exn rt (AttributeError (type_name v) "get"))]).
Proof.
  intros Hpr Hne Hrepo Hnd.
  assert (truthy (PDict pr) = true) as Ht.
  { destruct (truthy (PDict pr)) eqn:E; [done|]. by apply truthy_dict in E. }
  unfold extract_pr_details, try_except, bind, when, ret.
  cbn [get]. unfold ret. rewrite Hpr. cbn [from_option id]. rewrite Ht. cbn [negb].
  rewrite Hrepo. cbn [from_option id].
  destruct v as [| | | | | |m]; try reflexivity. by destruct (Hnd m).
Qed.

(** The extractor returns on the well-shaped events and exits with status 1,
    after one line, on all others. *)
Lemma extract_pr_details_cases context t :
  (well_shaped context ∧ ∃ d, extract_pr_details rt context t = (Returned d, t)) ∨
  (¬ well_shaped context ∧
   ∃ line, extract_pr_details rt context t = (Exited 1, t ++ [Stdout line])).
Proof.
  destruct context as [| | | | | |fields];
    try (right; split; [by intros (? & ? & ? & _)|by eexists]).
  destruct (truthy (from_option id PNone (fields !! "pull_request"))) eqn:Ht.
  2:{ right. split.
      - intros (f & pr & [= <-] & Hpr & Hne & _). rewrite Hpr in Ht.
        by apply truthy_dict in Ht.
      - eexists. by apply extract_pr_details_falsy. }
  destruct (fields !! "pull_request") as [pr|] eqn:Hpr; [|done].
  cbn [from_option id] in Ht.
  destruct (dict_or_not pr) as [[m ->]|Hnd].
  2:{ right. split.
      - intros (f & m & [= <-] & Hm & _). rewrite Hpr in Hm. injection Hm as ->.
        by destruct (Hnd m).
      - eexists. by apply extract_pr_details_not_object. }
  apply truthy_dict_true in Ht as Hne.
  destruct (fields !! "repository") as [v|] eqn:Hrepo.
  - destruct (dict_or_not v) as [[m' ->]|Hnd].
    + left. split.
      * exists fields, m. repeat split; [done..|].
        intros v Hv. rewrite Hrepo in Hv. injection Hv as <-. eauto.
      * eexists. apply extract_pr_details_object; [done..|].
        intros v Hv. rewrite Hrepo in Hv. injection Hv as <-. eauto.
    + right. split.
      * intros (f & p & [= <-] & _ & _ & Hr).
        destruct (Hr v Hrepo) as [m' ->]. by destruct (Hnd m').
      * eexists. by eapply extract_pr_details_bad_repository.
  - left. split.
    + exists fields, m. repeat split; [done..|]. by rewrite Hrepo.
    + eexists. apply extract_pr_details_object; [done..|]. by rewrite Hrepo.
Qed.

Lemma load_github_context_run t :
  load_github_context rt path t =
    match json_load rt path with
    | Loaded v => (Returned v, t)
    | Unreadable (FileNotFoundError p) =>
        (Exited 1, t ++ [Stdout ("ERROR: GitHub event file not found at " +:+ path)])
    | Unreadable JSONDecodeError =>
        (Exited 1, t ++ [Stdout "ERROR: Failed to parse GitHub event file"])
    | Unreadable e => (Raised e, t)
    end.
Proof.
  unfold load_github_context, read_json, try_except, bind.
  by destruct (json_load rt path) as [v|[]].
Qed.

(** The poster: one POST, then lines only; the answer decides the outcome. *)
Lemma post_comment_on_pr_cases repo pr_number comment_body t :
  ∃ lines o,
    post_comment_on_pr rt self repo pr_number comment_body t =
      (o, t ++ HttpPost (comment_url rt repo pr_number)
                 (comment_data comment_body) (headers self) :: lines) ∧
    outbound lines = [] ∧
    match requests_post rt t (comment_url rt repo pr_number)
            (comment_data comment_body) (headers self) with
    | Failed e => o = Exited 1
    | Responded r =>
        if status_code r =? 201
        then (has_id r ∧ o = Returned true) ∨ (¬ has_id r ∧ o = Exited 1)
        else o = Returned false
    end.
Proof.
  unfold post_comment_on_pr, try_except, bind, http_post, response_json, subscript,
    print, emit, sys_exit, raise, ret.
  destruct (requests_post rt t _ _ _) as [r|e] eqn:Hp; cbn.
  2:{ eexists _, _. rewrite <- (assoc_L (++)). by repeat split. }
  destruct (status_code r =? 201) eqn:Hs; cbn.
  2:{ eexists _, _. rewrite <- !(assoc_L (++)). by repeat split. }
  assert ((∀ m x, json r = Some (PDict m) → m !! "id" = Some x → False) →
          ¬ has_id r) as Hno.
  { intros Hv (m & x & Hj & Hx). eauto. }
  destruct (json r) as [[| | | | | |m]|] eqn:Hj; cbn;
    try (eexists _, _; rewrite <- !(assoc_L (++));
         split; [reflexivity|]; split; [reflexivity|]; right;
         split; [by apply Hno|reflexivity]).
  destruct (m !! "id") as [x|] eqn:Hx; cbn.
  - eexists _, _. rewrite <- !(assoc_L (++)).
    split; [reflexivity|]. split; [reflexivity|]. left. split; [|done].
    by exists m, x.
  - eexists _, _. rewrite <- !(assoc_L (++)).
    split; [reflexivity|]. split; [reflexivity|]. right. split; [|done].
    apply Hno. intros m' x' [= <-]. by rewrite Hx.
Qed.

End Stages.

Section Run_stages.
Context (rt : runtime) {order : SetOrder} (path : string) (self : analyzer).

Lemma outbound_elem (t : trace) e : e ∈ outbound t → e ∈ t.
Proof.
  induction t as [|x t IH]; [done|].
  destruct x; cbn; rewrite ?elem_of_cons; intuition.
Qed.

Lemma gets_no_post urls : Forall (λ e, ¬ is_post e) (gets urls).
Proof.
  induction urls as [|u urls IH]; [constructor|].
  constructor; [by intros []|exact IH].
Qed.

Ltac norm_outbound :=
  rewrite ?outbound_app; cbn [outbound]; rewrite ?app_nil_r, <- ?(assoc_L (++)).

(** The course of a run: it stops before the analysis, or the model
    refuses, or the comment is posted and the answer to the POST decides. *)
Lemma run_stages t :
  ∃ o t', run rt path self t = (o, t') ∧
    (((o = Exited 1 ∨ ∃ e, o = Raised e ∧ json_load rt path = Unreadable e) ∧
      outbound t' = outbound t)
     ∨ (∃ urls h prompt parts e,
          o = Exited 1 ∧
          generate_content rt h prompt parts = Refused e ∧
          outbound t' = outbound t ++ gets urls ++ [GenerateContent prompt parts])
     ∨ (∃ urls h prompt parts a h' d,
          generate_content rt h prompt parts = Answered a ∧
          outbound t' =
            outbound t ++ gets urls ++
            [GenerateContent prompt parts;
             HttpPost (comment_url rt (repo d) (number d))
               (comment_data (Str.strip a)) (headers self)] ∧
          match requests_post rt h' (comment_url rt (repo d) (number d))
                  (comment_data (Str.strip a)) (headers self) with
          | Failed _ => o = Exited 1
          | Responded r =>
              if status_code r =? 201
              then (has_id r ∧ o = Returned tt) ∨ (¬ has_id r ∧ o = Exited 1)
              else o = Exited 1
          end)).
Proof.
  unfold run, bind, print, emit, sys_exit. cbn beta iota.
  rewrite load_github_context_run.
  destruct (json_load rt path) as [context|e] eqn:Hload.
  2:{ destruct e; eexists _, _; (split; [reflexivity|]); left;
        norm_outbound; eauto 6. }
  cbn beta iota.
  match goal with
  | |- context [extract_pr_details rt context ?T] =>
      destruct (extract_pr_details_cases rt context T)
        as [[_ [d ->]]|[_ [line ->]]]
  end.
  2:{ eexists _, _. split; [reflexivity|]. left. norm_outbound. eauto. }
  cbn beta iota.
  destruct (description d) as [| | | |text| |] eqn:Hd.
  1-4,6-7:
    rewrite analyze_with_gemini_not_text by (by rewrite Hd);
    eexists _, _; (split; [reflexivity|]); left; norm_outbound; eauto.
  match goal with
  | |- context [analyze_with_gemini rt d ?T] =>
      destruct (analyze_with_gemini_text rt d text T Hd)
        as (pre & parts & Hpre & _ & _ & ->)
  end.
  match goal with
  | |- context [generate_content rt ?H ?P parts] =>
      destruct (generate_content rt H P parts) as [a|e] eqn:Hgen
  end.
  2:{ eexists _, _. split; [reflexivity|]. right. left.
      eexists _, _, _, _, _. split; [reflexivity|]. split; [exact Hgen|].
      norm_outbound. by rewrite Hpre. }
  cbn beta iota.
  match goal with
  | |- context [post_comment_on_pr rt self ?R ?N ?B ?T] =>
      destruct (post_comment_on_pr_cases rt self R N B T)
        as (lines & o & -> & Hlines & Hverdict)
  end.
  assert (∀ t', outbound (t' ++ lines) = outbound t') as Hl.
  { intros t'. by rewrite outbound_app, Hlines, app_nil_r. }
  match type of Hverdict with
  | match requests_post rt ?H _ _ _ with _ => _ end => set (h' := H) in *
  end.
  destruct o as [[|]|e|c].
  - eexists _, _. split; [reflexivity|]. right. right.
    exists (take 3 (extract_images_from_description text)).
    eexists _, _, _, _, h', d. split; [exact Hgen|]. split.
    + unfold h'. norm_outbound. by rewrite Hlines, Hpre.
    + destruct (requests_post rt h' _ _ _) as [r|]; [|done].
      destruct (status_code r =? 201); [|done].
      destruct Hverdict as [[? _]|[_ ?]]; [by left|done].
  - eexists _, _. split; [reflexivity|]. right. right.
    exists (take 3 (extract_images_from_description text)).
    eexists _, _, _, _, h', d. split; [exact Hgen|]. split.
    + unfold h'. norm_outbound. by rewrite Hlines, Hpre.
    + destruct (requests_post rt h' _ _ _) as [r|]; [|done].
      destruct (status_code r =? 201); [|done].
      by destruct Hverdict as [[_ ?]|[_ ?]].
  - exfalso. destruct (requests_post rt h' _ _ _) as [r|]; [|done].
    destruct (status_code r =? 201); [|done].
    by destruct Hverdict as [[_ ?]|[_ ?]].
  - eexists _, _. split; [reflexivity|]. right. right.
    exists (take 3 (extract_images_from_description text)).
    eexists _, _, _, _, h', d. split; [exact Hgen|]. split.
    + unfold h'. norm_outbound. by rewrite Hlines, Hpre.
    + destruct (requests_post rt h' _ _ _) as [r|].
      * destruct (status_code r =? 201); [|done].
        destruct Hverdict as [[_ ?]|[Hn [= ->]]]; [done|by right].
      * by injection Hverdict as ->.
Qed.

End Run_stages.

(** * Further properties of the methods *)

(** X1. [extract_pr_details] never lets an exception out: it returns a
    record, leaving the trace as it was, exactly on the events that are an
    object whose [pull_request] is a non-empty object and whose [repository]
    is absent or an object; on every other event (not an object, a truthy
    [pull_request] that is not an object, a [repository] that is null or not
    an object, ...) it prints one line and exits with status 1. *)
Theorem extract_pr_details_returns_iff (rt : runtime) (context : pyval) (t : trace) :
  (well_shaped context ↔ ∃ d, extract_pr_details rt context t = (Returned d, t)) ∧
  (¬ well_shaped context ↔
   ∃ line, extract_pr_details rt context t = (Exited 1, t ++ [Stdout line])).
Proof.
  destruct (extract_pr_details_cases rt context t)
    as [[Hw [d Hd]]|[Hw [line Hl]]]; (split; split).
  - eauto.
  - done.
  - done.
  - intros [line Hl]. rewrite Hd in Hl. discriminate.
  - done.
  - intros [d Hd]. rewrite Hl in Hd. discriminate.
  - eauto.
  - done.
Qed.

(** X2. Every URL the Markdown pattern finds stands in the description
    between [](] and the first [)] that follows: it holds no closing
    parenthesis and no newline, and the alt text before it holds no
    newline. *)
Theorem markdown_urls_are_literal (description u : string) :
  u ∈ Re.findall markdown_pattern description →
  ∃ before alt after,
    description = before +:+ "![" +:+ alt +:+ "](" +:+ u +:+ ")" +:+ after ∧
    has_char ")" u = false ∧ has_char "010" u = false ∧
    has_char "010" alt = false.
Proof.
  intros (before & s' & m & rest & -> & He & <-)%scan_elem.
  apply exec_markdown_capture in He as (alt & url & -> & -> & Ha & Hu & Hp).
  by exists before, alt, rest.
Qed.

Lemma markdown_urls_are_literal_witness :
  ∃ before alt after,
    "see ![shot](http://x/a.png) and (more)" =
      before +:+ "![" +:+ alt +:+ "](" +:+ "http://x/a.png" +:+ ")" +:+ after ∧
    has_char ")" "http://x/a.png" = false ∧
    has_char "010" "http://x/a.png" = false ∧
    has_char "010" alt = false.
Proof.
  apply (markdown_urls_are_literal "see ![shot](http://x/a.png) and (more)").
  vm_compute. left.
Defined.

(** X3. Every URL the HTML pattern finds stands in the description after
    [<img], one or more characters other than [>], [src=] and a quote, and
    before a quote: it is not empty and holds no quote of either kind. *)
Theorem html_urls_are_literal (description u : string) :
  u ∈ Re.findall html_pattern description →
  ∃ before attrs q q' after,
    description =
      before +:+ "<img" +:+ attrs +:+ "src=" +:+ String q (u +:+ String q' after) ∧
    attrs ≠ "" ∧ free_of [">"]%char attrs = true ∧
    q ∈ quotes ∧ q' ∈ quotes ∧
    u ≠ "" ∧ free_of quotes u = true.
Proof.
  intros (before & s' & m & rest & -> & He & <-)%scan_elem.
  apply exec_html_capture in He
    as (attrs & q & url & q' & -> & -> & Ha & Hg & Hq & Hq' & Hu & Hf).
  by exists before, attrs, q, q', rest.
Qed.

Lemma html_urls_are_literal_witness :
  ∃ before attrs q q' after,
    "<p><img alt='x' src='http://x/a.png'></p>" =
      before +:+ "<img" +:+ attrs +:+ "src=" +:+
      String q ("http://x/a.png" +:+ String q' after) ∧
    attrs ≠ "" ∧ free_of [">"]%char attrs = true ∧
    q ∈ quotes ∧ q' ∈ quotes ∧
    "http://x/a.png" ≠ "" ∧ free_of quotes "http://x/a.png" = true.
Proof.
  apply (html_urls_are_literal "<p><img alt='x' src='http://x/a.png'></p>").
  vm_compute. left.
Defined.

(** X4. The extractor invents nothing: every URL it returns is a substring
    of the description. *)
Theorem extract_images_are_substrings {order : SetOrder} (description u : string) :
  u ∈ extract_images_from_description description →
  ∃ before after, description = before +:+ u +:+ after.
Proof.
  intros [Hm|Hh]%extract_images_elem.
  - apply scan_elem in Hm as (before & s' & m & rest & -> & He & <-).
    apply exec_markdown_capture in He as (alt & url & -> & -> & _).
    exists (before +:+ "![" +:+ alt +:+ "]("), (")" +:+ rest). by norm_append.
  - apply scan_elem in Hh as (before & s' & m & rest & -> & He & <-).
    apply exec_html_capture in He as (attrs & q & url & q' & -> & -> & _).
    exists (before +:+ "<img" +:+ attrs +:+ "src=" +:+ String q ""), (String q' rest).
    by norm_append.
Qed.

Lemma extract_images_are_substrings_witness :
  ∃ before after,
    "see ![shot](http://x/a.png) and (more)" = before +:+ "http://x/a.png" +:+ after.
Proof.
  apply (@extract_images_are_substrings gset_order
           "see ![shot](http://x/a.png) and (more)").
  apply extract_images_elem. left. vm_compute. left.
Defined.







(** X8. A text that starts with a Markdown image whose alt text holds no
    []] and no newline, and whose URL part, the text between [](] and the
    first [)] after it, holds no newline, yields that URL part as its first
    URL, whatever follows, and the scan goes on right after that
    parenthesis: a URL that holds a closing parenthesis is cut there, and
    [()] gives the empty URL. *)
Theorem markdown_url_ends_at_parenthesis (alt u tail : string) :
  free_of ["]"; "010"]%char alt = true →
  free_of [")"; "010"]%char u = true →
  Re.findall markdown_pattern ("![" +:+ alt +:+ "](" +:+ u +:+ ")" +:+ tail) =
  u :: Re.findall markdown_pattern tail.
Proof.
  intros Ha Hu.
  pose proof (exec_markdown_head alt u tail Re.no_marks Ha Hu) as He.
  revert He. norm_append. intros He.
  rewrite (findall_step_match _ _ _ _ He).
  - by rewrite group1_marks.
  - cbn. rewrite !append_length. cbn. rewrite !append_length. cbn. lia.
Qed.

Lemma markdown_url_ends_at_parenthesis_witness :
  Re.findall markdown_pattern
    ("![" +:+ "the <b>map</b>!" +:+ "](" +:+ "http://x/a_(1" +:+ ")" +:+ ".png) end") =
  "http://x/a_(1" :: Re.findall markdown_pattern ".png) end".
Proof.
  apply (markdown_url_ends_at_parenthesis "the <b>map</b>!" "http://x/a_(1" ".png) end");
    reflexivity.
Defined.

(** X9. What an analysis sends, in order.  When the description is text:
    one GET with the timeout of ten for each of the first three extracted
    URLs, then one single call to the model with the prompt of the PR; the
    call carries at most one part per URL requested, each part holds data
    that is not empty and the MIME type of one of those URLs.  When the
    description is not text (a null body), nothing is sent and the process
    exits with status 1. *)
Theorem analyze_with_gemini_outbound
    (rt : runtime) {order : SetOrder} (details : pr_details) (t : trace) :
  ∃ o new,
    analyze_with_gemini rt details t = (o, t ++ new) ∧
    match description details with
    | PStr text =>
        ∃ parts,
          outbound new =
            gets (take 3 (extract_images_from_description text)) ++
            [GenerateContent (build_prompt rt details) parts] ∧
          (length parts ≤ length (take 3 (extract_images_from_description text)))%nat ∧
          Forall (part_of (take 3 (extract_images_from_description text))) parts
    | _ => outbound new = [] ∧ o = Exited 1
    end.
Proof.
  destruct (description details) as [| | | |text| |] eqn:Hd.
  1-4,6-7:
    rewrite analyze_with_gemini_not_text by (by rewrite Hd); by eexists _, [_].
  destruct (analyze_with_gemini_text rt details text t Hd)
    as (pre & parts & Hpre & Hlen & Hparts & ->).
  destruct (generate_content rt (t ++ pre) (build_prompt rt details) parts).
  - eexists _, (pre ++ [_]). split; [by rewrite (assoc_L (++))|].
    exists parts. rewrite outbound_app, Hpre. by repeat split.
  - eexists _, (pre ++ [_; _]). split; [by rewrite <- !(assoc_L (++))|].
    exists parts. rewrite outbound_app, Hpre. by repeat split.
Qed.

(** X10. [analyze_with_gemini] never lets an exception out.  What it
    returns is an answer of the model with the surrounding white space
    removed; every failure (a description that is not text, a refusal of the
    model) ends the process with status 1. *)
Theorem analyze_with_gemini_never_raises
    (rt : runtime) {order : SetOrder} (details : pr_details) (t : trace) :
  match (analyze_with_gemini rt details t).1 with
  | Returned analysis =>
      ∃ h prompt parts a,
        generate_content rt h prompt parts = Answered a ∧
        analysis = Str.strip a
  | Exited code => code = 1
  | Raised _ => False
  end.
Proof.
  destruct (description details) as [| | | |text| |] eqn:Hd.
  1-4,6-7: by rewrite analyze_with_gemini_not_text by (by rewrite Hd).
  destruct (analyze_with_gemini_text rt details text t Hd)
    as (pre & parts & _ & _ & _ & ->).
  destruct (generate_content rt (t ++ pre) (build_prompt rt details) parts)
    as [a|e] eqn:Hgen; cbn; [|done].
  by exists (t ++ pre), (build_prompt rt details), parts, a.
Qed.

(** X11. Failed downloads do not stop the analysis: when the description
    is text and the model answers, the analysis returns that answer,
    stripped, whatever the GET requests gave. *)
Theorem analyze_with_gemini_survives_downloads
    (rt : runtime) {order : SetOrder} (details : pr_details) (text a : string)
    (t : trace) :
  description details = PStr text →
  (∀ h prompt parts, generate_content rt h prompt parts = Answered a) →
  (analyze_with_gemini rt details t).1 = Returned (Str.strip a).
Proof.
  intros Hd Hmodel.
  destruct (analyze_with_gemini_text rt details text t Hd)
    as (pre & parts & _ & _ & _ & ->).
  by rewrite Hmodel.
Qed.

Lemma analyze_with_gemini_survives_downloads_witness :
  (@analyze_with_gemini
     (Samples.scripted (Failed (RequestException "Read timed out."))
        (Failed JSONDecodeError)
        (Answered (Samples.nbsp +:+ Samples.em_space +:+ "Looks fine." +:+
                   Samples.next_line +:+ " ")))
     gset_order
     {| title := PStr "Fix bug";
        description := PStr "![a](http://x/1.png) <img src='http://x/2.gif'>";
        number := PInt 42; url := PNone; repo := PStr "acme/repo" |} []).1 =
  Returned "Looks fine.".
Proof.
  exact (@analyze_with_gemini_survives_downloads
           (Samples.scripted (Failed (RequestException "Read timed out."))
              (Failed JSONDecodeError)
              (Answered (Samples.nbsp +:+ Samples.em_space +:+ "Looks fine." +:+
                         Samples.next_line +:+ " ")))
           gset_order
           {| title := PStr "Fix bug";
              description := PStr "![a](http://x/1.png) <img src='http://x/2.gif'>";
              number := PInt 42; url := PNone; repo := PStr "acme/repo" |}
           "![a](http://x/1.png) <img src='http://x/2.gif'>"
           (Samples.nbsp +:+ Samples.em_space +:+ "Looks fine." +:+
            Samples.next_line +:+ " ")
           [] eq_refl (λ _ _ _, eq_refl)).
Defined.

(** X12. [post_comment_on_pr] sends exactly one POST, to the comments of the
    issue, with the comment as data and the headers of the analyzer, and
    nothing else; it never lets an exception out: it returns a boolean or
    exits with status 1, and it exits when the transport raises. *)
Theorem post_comment_on_pr_one_post
    (rt : runtime) (self : analyzer) (repo pr_number : pyval)
    (comment_body : string) (t : trace) :
  ∃ o lines,
    post_comment_on_pr rt self repo pr_number comment_body t =
      (o, t ++ HttpPost (comment_url rt repo pr_number)
                 (comment_data comment_body) (headers self) :: lines) ∧
    outbound lines = [] ∧
    (o = Returned true ∨ o = Returned false ∨ o = Exited 1) ∧
    (∀ e, requests_post rt t (comment_url rt repo pr_number)
            (comment_data comment_body) (headers self) = Failed e →
          o = Exited 1).
Proof.
  destruct (post_comment_on_pr_cases rt self repo pr_number comment_body t)
    as (lines & o & Hp & Hl & Hv).
  exists o, lines. split; [done|]. split; [done|].
  destruct (requests_post rt t _ _ _) as [r|e].
  - split; [|done]. destruct (status_code r =? 201); [|auto].
    destruct Hv as [[_ ->]|[_ ->]]; auto.
  - split; [auto|]. done.
Qed.

(** X13. The exit status of a run.  A run ends normally, or exits with
    status 1, or is ended by an exception; the only exception that can end
    it is one raised while the event file is read. *)
Theorem run_exit_status
    (rt : runtime) {order : SetOrder} (path : string) (self : analyzer) (t : trace) :
  match (run rt path self t).1 with
  | Returned _ => True
  | Exited code => code = 1
  | Raised e => json_load rt path = Unreadable e
  end.
Proof.
  destruct (run_stages rt path self t) as (o & t' & -> & Hs). cbn.
  destruct Hs as [[[->|(e & -> & He)] _]
                 |[(? & ? & ? & ? & ? & -> & _)
                  |(urls & h & p & parts & a & h' & d & _ & _ & Hv)]]; try done.
  destruct (requests_post rt h' _ _ _) as [r|]; [|by subst].
  destruct (status_code r =? 201); [|by subst].
  by destruct Hv as [[_ ->]|[_ ->]].
Qed.

(** X14. A run that ends normally has posted the comment: the model
    answered, a POST carrying that answer, stripped, as the comment was
    sent with the headers of the analyzer, and it was answered with status
    201 and a body that holds an [id]. *)
Theorem run_success_means_posted
    (rt : runtime) {order : SetOrder} (path : string) (self : analyzer) (t : trace) :
  (run rt path self t).1 = Returned tt →
  ∃ h prompt parts a h' url r,
    generate_content rt h prompt parts = Answered a ∧
    HttpPost url (comment_data (Str.strip a)) (headers self) ∈ (run rt path self t).2 ∧
    requests_post rt h' url (comment_data (Str.strip a)) (headers self) = Responded r ∧
    status_code r = 201 ∧ has_id r.
Proof.
  destruct (run_stages rt path self t) as (o & t' & -> & Hs). cbn. intros ->.
  destruct Hs as [[[?|(e & ? & _)] _]
                 |[(? & ? & ? & ? & ? & ? & _)
                  |(urls & h & p & parts & a & h' & d & Hgen & Hout & Hv)]];
    try done.
  destruct (requests_post rt h' _ _ _) as [r|] eqn:Hpost; [|done].
  destruct (Z.eqb_spec (status_code r) 201) as [Hs|]; [|done].
  destruct Hv as [[Hid _]|[_ ?]]; [|done].
  exists h, p, parts, a, h', (comment_url rt (repo d) (number d)), r.
  repeat split; [done| |done..].
  apply outbound_elem. rewrite Hout, !elem_of_app. right. right.
  apply elem_of_cons. right. left.
Qed.

Lemma run_success_means_posted_witness :
  ∃ h prompt parts a h' url r,
    generate_content
      (Samples.with_event
         (Loaded (PDict (<["pull_request" := PDict (<["body" := PStr "text"]> ∅)]> ∅)))
         (Samples.scripted (Failed JSONDecodeError)
            (Responded (Samples.reply 201 (Some (PDict (<["id" := PInt 7]> ∅)))))
            (Answered "ok")))
      h prompt parts = Answered a ∧
    HttpPost url (comment_data (Str.strip a)) (headers (init "tok" "key")) ∈
      (@run
         (Samples.with_event
            (Loaded (PDict (<["pull_request" := PDict (<["body" := PStr "text"]> ∅)]> ∅)))
            (Samples.scripted (Failed JSONDecodeError)
               (Responded (Samples.reply 201 (Some (PDict (<["id" := PInt 7]> ∅)))))
               (Answered "ok")))
         first_seen_order "/tmp/event.json" (init "tok" "key") []).2 ∧
    requests_post
      (Samples.with_event
         (Loaded (PDict (<["pull_request" := PDict (<["body" := PStr "text"]> ∅)]> ∅)))
         (Samples.scripted (Failed JSONDecodeError)
            (Responded (Samples.reply 201 (Some (PDict (<["id" := PInt 7]> ∅)))))
            (Answered "ok")))
      h' url (comment_data (Str.strip a)) (headers (init "tok" "key")) = Responded r ∧
    status_code r = 201 ∧ has_id r.
Proof.
  apply (@run_success_means_posted
           (Samples.with_event
              (Loaded (PDict (<["pull_request" := PDict (<["body" := PStr "text"]> ∅)]> ∅)))
              (Samples.scripted (Failed JSONDecodeError)
                 (Responded (Samples.reply 201 (Some (PDict (<["id" := PInt 7]> ∅)))))
                 (Answered "ok")))
           first_seen_order "/tmp/event.json" (init "tok" "key") []).
  vm_compute. reflexivity.
Defined.

(** X15. Without an answer of the model no comment is posted: when the
    model refuses every call, the run does not end normally and sends no
    POST. *)
Theorem run_no_post_without_answer
    (rt : runtime) {order : SetOrder} (path : string) (self : analyzer) (t : trace) :
  (∀ h prompt parts, ∃ e, generate_content rt h prompt parts = Refused e) →
  (run rt path self t).1 ≠ Returned tt ∧
  ∃ sent, outbound (run rt path self t).2 = outbound t ++ sent ∧
          Forall (λ e, ¬ is_post e) sent.
Proof.
  intros Hmodel.
  destruct (run_stages rt path self t) as (o & t' & -> & Hs). cbn.
  destruct Hs as [[Ho Hout]
                 |[(urls & h & p & parts & e & -> & _ & Hout)
                  |(urls & h & p & parts & a & h' & d & Hgen & _)]].
  - split.
    + by destruct Ho as [->|(e & -> & _)].
    + exists []. by rewrite app_nil_r.
  - split; [done|]. eexists. split; [exact Hout|].
    apply Forall_app_2; [apply gets_no_post|].
    apply Forall_singleton. by intros [].
  - destruct (Hmodel h p parts) as [e He]. congruence.
Qed.

Lemma run_no_post_without_answer_witness :
  (@run
     (Samples.with_event
        (Loaded (PDict (<["pull_request" := PDict (<["body" := PStr "text"]> ∅)]> ∅)))
        Samples.offline)
     first_seen_order "/tmp/event.json" (init "tok" "key") []).1 ≠ Returned tt ∧
  ∃ sent,
    outbound
      (@run
         (Samples.with_event
            (Loaded (PDict (<["pull_request" := PDict (<["body" := PStr "text"]> ∅)]> ∅)))
            Samples.offline)
         first_seen_order "/tmp/event.json" (init "tok" "key") []).2 =
    outbound [] ++ sent ∧
    Forall (λ e, ¬ is_post e) sent.
Proof.
  apply (@run_no_post_without_answer
           (Samples.with_event
              (Loaded (PDict (<["pull_request" := PDict (<["body" := PStr "text"]> ∅)]> ∅)))
              Samples.offline)
           first_seen_order "/tmp/event.json" (init "tok" "key") []).
  intros h prompt parts. eexists. reflexivity.
Defined.

(** X18. The script checks its three variables in order before anything
    else: when one of them is unset or empty it prints one line and exits
    with status 1, with nothing read and nothing sent; when all three are
    set it is the run of an analyzer built from the token. *)
Theorem main_requires_environment
    (rt : runtime) {order : SetOrder} (environ : gmap string string) (t : trace) :
  let token := default "" (environ !! "GITHUB_TOKEN") in
  let key := default "" (environ !! "GEMINI_API_KEY") in
  let path := default "" (environ !! "GITHUB_EVENT_PATH") in
  (token = "" ∨ key = "" ∨ path = "" →
   ∃ line, main rt environ t = (Exited 1, t ++ [Stdout line])) ∧
  (token ≠ "" → key ≠ "" → path ≠ "" →
   main rt environ t = run rt path (init token key) t).
Proof.
  cbn zeta. unfold main, bind, when, print, emit, sys_exit, ret. split.
  - intros Hmissing.
    destruct (String.eqb_spec (default "" (environ !! "GITHUB_TOKEN")) "");
      [by eexists|].
    destruct (String.eqb_spec (default "" (environ !! "GEMINI_API_KEY")) "");
      [by eexists|].
    destruct (String.eqb_spec (default "" (environ !! "GITHUB_EVENT_PATH")) "");
      [by eexists|].
    by destruct Hmissing as [?|[?|?]].
  - intros Ht Hk Hp.
    apply String.eqb_neq in Ht, Hk, Hp. by rewrite Ht, Hk, Hp.
Qed.

Lemma run_unsupported_event_witness :
  ∃ t',
    @run (Samples.with_event (Loaded (PDict (<["action" := PStr "push"]> ∅)))
            Samples.offline)
      first_seen_order "/tmp/event.json" (init "tok" "key") [] =
    (Exited 1, [] ++ t') ∧
    outbound t' = [].
Proof.
  apply (@run_unsupported_event
           (Samples.with_event (Loaded (PDict (<["action" := PStr "push"]> ∅)))
              Samples.offline)
           first_seen_order "/tmp/event.json" (init "tok" "key")
           (<["action" := PStr "push"]> ∅) []).
  - reflexivity.
  - reflexivity.
Defined.

Lemma run_without_event_witness :
  ∃ t',
    @run Samples.offline first_seen_order "/tmp/event.json" (init "tok" "key") [] =
    (Exited 1, [] ++ t') ∧
    outbound t' = [].
Proof.
  apply (@run_without_event Samples.offline first_seen_order "/tmp/event.json"
           (init "tok" "key") []).
  left. eexists. reflexivity.
Defined.


(** ** White space *)

(** [strip] removes the white space of [str.isspace] on both sides, the
    code points outside ASCII included, and nothing else: a zero-width
    space (U+200B) stays. *)
Example strip_unicode_white_space :
  Str.strip (Samples.nbsp +:+ Samples.em_space +:+ String "009" " Looks fine." +:+
             Samples.next_line +:+ String "010" " ") = "Looks fine." ∧
  Str.strip (String "226" (String "128" (String "139" "")) +:+ "ok ") =
  String "226" (String "128" (String "139" "")) +:+ "ok" ∧
  Str.strip (" " +:+ Samples.nbsp +:+ " ") = "".
Proof. vm_compute. done. Qed.

(** ** The extractor on written images: what holds and what does not *)



(** The witness is scenario C, letter for letter. *)
Example scenario_C_is_well_formed :
  render_all [MarkdownImage "shot" "http://x/a.png"; Text " and ";
              HtmlImage " " "'" "http://x/a.png"] =
  "![shot](http://x/a.png) and <img src='http://x/a.png'>".
Proof. reflexivity. Qed.





